(** * bankline: recurring cash-flow expansion and balance projection

    A shallow embedding of [bank_balance.py] and the properties of its two
    computational pieces, [generate_recurring_events] and [project_balance],
    together with the sidebar and tab handlers that maintain the two
    collections of declarations.

    Modelling conventions.
    - A calendar date is a record of year, month and day, as the fields of
      [datetime]; the helpers [_is_leap], [_days_in_month],
      [_days_before_month], [_days_before_year] and [toordinal] follow the
      proleptic Gregorian arithmetic of the [datetime] module.  Dates carry
      no time of day.  The upper end of the representable range of the date
      type is not modelled.
    - [current + timedelta(days=n)] is the n-th calendar successor.
    - [replace] re-validates the fields and raises [ValueError] when they
      do not name a day of the calendar.
    - Amounts and balances are exact integers (minor units) in
      [project_balance]; [FloatAmounts.project_balance] is the same
      function over binary64 floats, with the rounding of every addition.
    - [Bounded] is the expansion loop over a date type that ends with the
      year [MAXYEAR]; it agrees with the unbounded loop whenever the end
      date is before that year.
    - The [while] loop of [generate_recurring_events] is a step function on
      the loop state, iterated under a fuel bound, since it need not
      terminate for every frequency string. *)

From Stdlib Require Import ZArith List Bool String Lia Sorted Permutation.
From Stdlib Require PrimFloat.
Import ListNotations.
Local Open Scope Z_scope.

(* ================================================================== *)
(** ** Calendar dates *)
(* ================================================================== *)

Module Calendar.

Record date : Type := mkDate { year : Z; month : Z; day : Z }.

(** [_is_leap(year)]: year % 4 == 0 and (year % 100 != 0 or year % 400 == 0) *)
Definition is_leap (y : Z) : bool :=
  (y mod 4 =? 0) && (negb (y mod 100 =? 0) || (y mod 400 =? 0)).

(** [_DAYS_IN_MONTH], indexed from 1. *)
Definition DAYS_IN_MONTH (m : Z) : Z :=
  match m with
  | 1 => 31 | 2 => 28 | 3 => 31 | 4 => 30 | 5 => 31 | 6 => 30
  | 7 => 31 | 8 => 31 | 9 => 30 | 10 => 31 | 11 => 30 | 12 => 31
  | _ => 0
  end.

(** [_DAYS_BEFORE_MONTH], indexed from 1. *)
Definition DAYS_BEFORE_MONTH (m : Z) : Z :=
  match m with
  | 1 => 0 | 2 => 31 | 3 => 59 | 4 => 90 | 5 => 120 | 6 => 151
  | 7 => 181 | 8 => 212 | 9 => 243 | 10 => 273 | 11 => 304 | 12 => 334
  | _ => 0
  end.

Definition days_in_month (y m : Z) : Z :=
  if (m =? 2) && is_leap y then 29 else DAYS_IN_MONTH m.

Definition days_before_month (y m : Z) : Z :=
  DAYS_BEFORE_MONTH m + (if (2 <? m) && is_leap y then 1 else 0).

Definition days_before_year (y : Z) : Z :=
  let y' := y - 1 in y' * 365 + y' / 4 - y' / 100 + y' / 400.

Definition days_in_year (y : Z) : Z := if is_leap y then 366 else 365.

(** [_check_date_fields] without the upper bound on the year. *)
Definition valid_dateb (d : date) : bool :=
  (1 <=? year d) && (1 <=? month d) && (month d <=? 12)
  && (1 <=? day d) && (day d <=? days_in_month (year d) (month d)).

Definition valid_date (d : date) : Prop := valid_dateb d = true.

(** [date.toordinal()] *)
Definition toordinal (d : date) : Z :=
  days_before_year (year d) + days_before_month (year d) (month d) + day d.

(** Comparison of dates is the lexicographic comparison of their fields. *)
Definition date_eqb (a b : date) : bool :=
  (year a =? year b) && (month a =? month b) && (day a =? day b).

Definition date_ltb (a b : date) : bool :=
  (year a <? year b)
  || ((year a =? year b)
      && ((month a <? month b) || ((month a =? month b) && (day a <? day b)))).

Definition date_leb (a b : date) : bool := date_ltb a b || date_eqb a b.

Definition date_lt (a b : date) : Prop := date_ltb a b = true.
Definition date_le (a b : date) : Prop := date_leb a b = true.

(** [d + timedelta(days=1)] *)
Definition next_day (d : date) : date :=
  if day d <? days_in_month (year d) (month d)
  then mkDate (year d) (month d) (day d + 1)
  else if month d <? 12
       then mkDate (year d) (month d + 1) 1
       else mkDate (year d + 1) 1 1.

(** [d + timedelta(days=n)] for a natural number of days. *)
Fixpoint add_days (n : nat) (d : date) : date :=
  match n with
  | O => d
  | S k => add_days k (next_day d)
  end.

(** Exceptions the date type raises. *)
Inductive exn : Type := ValueError.

(** [d.replace(year=..., month=..., day=...)]: absent keywords keep the
    field of [d]; the new fields are checked. *)
Definition replace (d : date) (y m dd : option Z) : exn + date :=
  let d' := mkDate (match y with Some v => v | None => year d end)
                   (match m with Some v => v | None => month d end)
                   (match dd with Some v => v | None => day d end) in
  if valid_dateb d' then inr d' else inl ValueError.

End Calendar.

Import Calendar.

(* ================================================================== *)
(** ** Event expansion: [generate_recurring_events] *)
(* ================================================================== *)

(** Results of code that may raise, or that is cut off by the fuel bound. *)
Inductive result (A : Type) : Type :=
| Ok (a : A)
| Raise (e : exn)
| OutOfFuel.
Arguments Ok {A} a.
Arguments Raise {A} e.
Arguments OutOfFuel {A}.

(** The body of the [if]/[elif] chain: the next value of [current].  A
    frequency that matches no branch leaves [current] as it is. *)
Definition advance (freq : string) (current : date) : exn + date :=
  if String.eqb freq "Daily" then inr (add_days 1 current)
  else if String.eqb freq "Weekly" then inr (add_days 7 current)
  else if String.eqb freq "Monthly" then
    let month := month current in
    let year := year current in
    if month =? 12
    then replace current (Some (year + 1)) (Some 1) None
    else replace current None (Some (month + 1)) None
  else if String.eqb freq "Yearly" then
    match replace current (Some (year current + 1)) None None with
    | inr c => inr c
    | inl ValueError =>
        (* Handles Feb 29 -> Feb 28 for non-leap years *)
        replace current (Some (year current + 1)) (Some 2) (Some 28)
    end
  else inr current.

(** The local variables of the loop. *)
Record loop_state : Type := mkLoop { current : date; dates : list date }.

(** What one pass over the [while] does: go on with a new state, leave the
    loop and return the frame, or raise. *)
Inductive outcome : Type :=
| Running (s : loop_state)
| Returned (df : list (date * Z))
| Raised (e : exn).

Definition loop_step (end_date : date) (amount : Z) (freq : string)
  (s : loop_state) : outcome :=
  if date_leb (current s) end_date then
    let dates' := dates s ++ [current s] in
    match advance freq (current s) with
    | inr c => Running (mkLoop c dates')
    | inl e => Raised e
    end
  else Returned (map (fun d => (d, amount)) (dates s)).

(** [loop_iterate fuel s] runs at most [fuel] passes; it answers
    [Running s'] when the loop is still going after [fuel] passes. *)
Fixpoint loop_iterate (end_date : date) (amount : Z) (freq : string)
  (fuel : nat) (s : loop_state) : outcome :=
  match fuel with
  | O => Running s
  | S k =>
      match loop_step end_date amount freq s with
      | Running s' => loop_iterate end_date amount freq k s'
      | o => o
      end
  end.

Definition generate_recurring_events (fuel : nat)
  (start_date end_date : date) (amount : Z) (freq : string) : outcome :=
  loop_iterate end_date amount freq fuel (mkLoop start_date []).

(** The dates appended so far, whatever the outcome. *)
Definition emitted (o : outcome) : list date :=
  match o with
  | Running s => dates s
  | Returned df => map fst df
  | Raised _ => []
  end.

Definition terminated (o : outcome) : Prop :=
  match o with Running _ => False | _ => True end.

Definition recognised (freq : string) : Prop :=
  freq = "Daily"%string \/ freq = "Weekly"%string \/
  freq = "Monthly"%string \/ freq = "Yearly"%string.

(* ================================================================== *)
(** ** Balance projection: [project_balance] *)
(* ================================================================== *)

(** A row of the events frame. *)
Record event : Type :=
  mkEvent { ev_date : date; ev_amount : Z; ev_type : string; ev_name : string }.

(** A row of the timeline frame. *)
Record row : Type := mkRow { r_date : date; r_balance : Z; r_amount : Z }.

Fixpoint date_range_from (n : nat) (d : date) : list date :=
  match n with
  | O => []
  | S k => d :: date_range_from k (next_day d)
  end.

(** [pd.date_range(start, end)]: the days from [start] to [end], both
    included; empty when [end] is before [start]. *)
Definition date_range (start_date end_date : date) : list date :=
  if date_leb start_date end_date
  then date_range_from
         (Z.to_nat (toordinal end_date - toordinal start_date + 1)) start_date
  else [].

(** One step of [groupby("date")["amount"].sum()]: the groups are kept in
    ascending order of their key. *)
Fixpoint add_to_group (d : date) (a : Z) (groups : list (date * Z))
  : list (date * Z) :=
  match groups with
  | [] => [(d, a)]
  | (k, s) :: rest =>
      if date_eqb k d then (k, s + a) :: rest
      else if date_ltb d k then (d, a) :: (k, s) :: rest
      else (k, s) :: add_to_group d a rest
  end.

Definition groupby_sum (events : list event) : list (date * Z) :=
  fold_left (fun groups e => add_to_group (ev_date e) (ev_amount e) groups)
            events [].

(** [timeline.merge(daily, on="date", how="left")]: every row of the left
    frame, in order, once per matching row of the right frame, and once
    with a missing amount when nothing matches. *)
Definition merge_left (timeline : list date) (daily : list (date * Z))
  : list (date * option Z) :=
  flat_map
    (fun d =>
       match filter (fun g => date_eqb (fst g) d) daily with
       | [] => [(d, None)]
       | ms => map (fun g => (d, Some (snd g))) ms
       end)
    timeline.

Definition fillna (v : Z) (x : option Z) : Z :=
  match x with Some a => a | None => v end.

Fixpoint cumsum_from (acc : Z) (l : list Z) : list Z :=
  match l with
  | [] => []
  | x :: rest => (acc + x) :: cumsum_from (acc + x) rest
  end.

Definition cumsum (l : list Z) : list Z := cumsum_from 0 l.

Definition project_balance (start_balance : Z) (events : list event)
  (start_date end_date : date) : list row :=
  let timeline := date_range start_date end_date in
  let merged : list (date * Z) :=
    match events with
    | _ :: _ =>
        let daily := groupby_sum events in
        map (fun r => (fst r, fillna 0 (snd r))) (merge_left timeline daily)
    | [] => map (fun d => (d, 0)) timeline
    end in
  let balance := map (fun c => start_balance + c) (cumsum (map snd merged)) in
  map (fun rb => mkRow (fst (fst rb)) (snd rb) (snd (fst rb)))
      (combine merged balance).

(** Net amount of a day: the sum of the amounts of the events dated that
    day. *)
Fixpoint net_amount (events : list event) (d : date) : Z :=
  match events with
  | [] => 0
  | e :: rest =>
      (if date_eqb (ev_date e) d then ev_amount e else 0) + net_amount rest d
  end.

(** [timeline["balance"].min()]; there is no minimum of an empty column. *)
Definition min_balance (timeline : list row) : option Z :=
  match map r_balance timeline with
  | [] => None
  | b :: bs => Some (fold_left Z.min bs b)
  end.

(** The branch taken by [if min_balance < 0]. *)
Definition goes_negative (timeline : list row) : bool :=
  match min_balance timeline with
  | Some m => m <? 0
  | None => false
  end.

(* ================================================================== *)
(** ** Session state, persistence and the handlers *)
(* ================================================================== *)

Record declaration : Type :=
  mkDecl { name : string; amount : Z; frequency : string;
           start_date : date; end_date : date }.

Record session_state : Type :=
  mkSession { bills : list declaration; income : list declaration }.

(** The session and the content of [DATA_FILE], if the file exists. *)
Record app : Type :=
  mkApp { session : session_state; data_file : option session_state }.

Definition load_data (file : option session_state) : session_state :=
  match file with
  | Some data => data
  | None => mkSession [] []
  end.

Definition save_data (a : app) : app :=
  mkApp (session a) (Some (session a)).

(** First run of the script: the session is filled from the file. *)
Definition startup (file : option session_state) : app :=
  mkApp (load_data file) file.

(** The sidebar widgets. *)
Record sidebar : Type :=
  mkSidebar { flow_type : string; in_name : string; in_amount : Z;
              in_frequency : string; start_date_input : date;
              end_date_input : date }.

(** Lines 86-87: a positive amount entered for a bill is negated. *)
Definition sidebar_amount (inp : sidebar) : Z :=
  if String.eqb (flow_type inp) "Bill (expense)" && (0 <? in_amount inp)
  then - Z.abs (in_amount inp)
  else in_amount inp.

(** The [Add] button. *)
Definition add_handler (inp : sidebar) (a : app) : app :=
  let entry := mkDecl (in_name inp) (sidebar_amount inp) (in_frequency inp)
                      (start_date_input inp) (end_date_input inp) in
  let s := session a in
  save_data
    (if String.eqb (flow_type inp) "Bill (expense)"
     then mkApp (mkSession (bills s ++ [entry]) (income s)) (data_file a)
     else mkApp (mkSession (bills s) (income s ++ [entry])) (data_file a)).

(** The [Delete Bill] button with the value [remove] of its select box. *)
Definition delete_bill_handler (clicked : bool) (remove : string) (a : app)
  : app :=
  let s := session a in
  match bills s with
  | [] => a
  | _ :: _ =>
      if clicked && negb (String.eqb remove "None")
      then save_data
             (mkApp (mkSession
                       (filter (fun b => negb (String.eqb (name b) remove))
                               (bills s))
                       (income s))
                    (data_file a))
      else a
  end.

(** The [Delete Income] button with the value [remove] of its select box. *)
Definition delete_income_handler (clicked : bool) (remove : string) (a : app)
  : app :=
  let s := session a in
  match income s with
  | [] => a
  | _ :: _ =>
      if clicked && negb (String.eqb remove "None")
      then save_data
             (mkApp (mkSession
                       (bills s)
                       (filter (fun i => negb (String.eqb (name i) remove))
                               (income s)))
                    (data_file a))
      else a
  end.

(** What the user can do in one run of the script. *)
Inductive action : Type :=
| PressAdd (inp : sidebar)
| PressDeleteBill (remove : string)
| PressDeleteIncome (remove : string).

Definition handle (a : app) (act : action) : app :=
  match act with
  | PressAdd inp => add_handler inp a
  | PressDeleteBill remove => delete_bill_handler true remove a
  | PressDeleteIncome remove => delete_income_handler true remove a
  end.

Definition handle_all (a : app) (acts : list action) : app :=
  fold_left handle acts a.

(** *** The projection tab *)

(** One pass of either [for item in ...] loop: expand the declaration and
    tag the rows with [type] and [name]. *)
Definition expand_item (fuel : nat) (type : string) (item : declaration)
  : result (list event) :=
  match generate_recurring_events fuel (start_date item) (end_date item)
          (amount item) (frequency item) with
  | Returned df =>
      Ok (map (fun r => mkEvent (fst r) (snd r) type (name item)) df)
  | Raised e => Raise e
  | Running _ => OutOfFuel
  end.

Fixpoint expand_items (fuel : nat) (type : string) (items : list declaration)
  : result (list (list event)) :=
  match items with
  | [] => Ok []
  | item :: rest =>
      match expand_item fuel type item with
      | Ok df =>
          match expand_items fuel type rest with
          | Ok frames => Ok (df :: frames)
          | Raise e => Raise e
          | OutOfFuel => OutOfFuel
          end
      | Raise e => Raise e
      | OutOfFuel => OutOfFuel
      end
  end.

Record projection : Type :=
  mkProjection { timeline : list row; negative : bool }.

Definition projection_tab (fuel : nat) (s : session_state)
  (start_balance : Z) (start_date end_date : date) : result projection :=
  match expand_items fuel "Bill" (bills s) with
  | Ok bill_frames =>
      match expand_items fuel "Income" (income s) with
      | Ok income_frames =>
          let events := List.concat (bill_frames ++ income_frames) in
          let timeline :=
            project_balance start_balance events start_date end_date in
          Ok (mkProjection timeline (goes_negative timeline))
      | Raise e => Raise e
      | OutOfFuel => OutOfFuel
      end
  | Raise e => Raise e
  | OutOfFuel => OutOfFuel
  end.

(** The balance the timeline shows for a day, if the day is in it. *)
Definition balance_on (timeline : list row) (d : date) : option Z :=
  option_map r_balance (find (fun r => date_eqb (r_date r) d) timeline).

(* ================================================================== *)
(** ** The rest of the projection tab, and closed forms of the expansion *)
(* ================================================================== *)

(** Lines 112-113: the projection runs from today to [forecast_days]
    days later. *)
Definition forecast_end (today : date) (forecast_days : nat) : date :=
  add_days forecast_days today.

(** Lines 185-186, [events.merge(timeline[["date", "balance"]], on="date",
    how="left")]: every event, in order, once per timeline row of its
    date, and once with a missing balance when no row has that date. *)
Definition annotate_events (events : list event) (timeline : list row)
  : list (event * option Z) :=
  flat_map
    (fun e =>
       match filter (fun r => date_eqb (r_date r) (ev_date e)) timeline with
       | [] => [(e, None)]
       | ms => map (fun r => (e, Some (r_balance r))) ms
       end)
    events.

(** The sum of the amounts of the events dated from [lo] to [hi]. *)
Fixpoint total_between (events : list event) (lo hi : date) : Z :=
  match events with
  | [] => 0
  | e :: rest =>
      (if date_leb lo (ev_date e) && date_leb (ev_date e) hi
       then ev_amount e else 0)
      + total_between rest lo hi
  end.

(** [n] dates from [d] on, [k] days apart. *)
Fixpoint stride_dates (k n : nat) (d : date) : list date :=
  match n with
  | O => []
  | S n' => d :: stride_dates k n' (add_days k d)
  end.

(** How many dates [k] days apart fit from [start_date] to [end_date]. *)
Definition stride_count (k : nat) (start_date end_date : date) : nat :=
  if date_leb start_date end_date
  then Z.to_nat ((toordinal end_date - toordinal start_date) / Z.of_nat k + 1)
  else O.

(** The date [i] months after [d], on the same day of the month. *)
Definition monthly_date (d : date) (i : nat) : date :=
  let months := year d * 12 + (month d - 1) + Z.of_nat i in
  mkDate (months / 12) (months mod 12 + 1) (day d).

(** The date the yearly branch reaches [i] years after [d]: the same month
    and day, but the 28th from the first step on when [d] is a 29th of
    February. *)
Definition yearly_date (d : date) (i : nat) : date :=
  match i with
  | O => d
  | S _ =>
      mkDate (year d + Z.of_nat i) (month d)
             (if (month d =? 2) && (day d =? 29) then 28 else day d)
  end.


(** The file and the session agree: a restart would load this session. *)
Definition persisted (a : app) : Prop :=
  load_data (data_file a) = session a.

(* ================================================================== *)
(** ** The projection over binary64 amounts *)
(* ================================================================== *)

Module FloatAmounts.

Import PrimFloat.

(** The two columns of the events frame that [project_balance] reads,
    with the amount as the float the number input gives. *)
Record event : Type := mkEvent { ev_date : date; ev_amount : float }.

Record row : Type := mkRow { r_date : date; r_balance : float; r_amount : float }.

Fixpoint add_to_group (d : date) (a : float) (groups : list (date * float))
  : list (date * float) :=
  match groups with
  | [] => [(d, a)]
  | (k, s) :: rest =>
      if date_eqb k d then (k, (s + a)%float) :: rest
      else if date_ltb d k then (d, a) :: (k, s) :: rest
      else (k, s) :: add_to_group d a rest
  end.

Definition groupby_sum (events : list event) : list (date * float) :=
  fold_left (fun groups e => add_to_group (ev_date e) (ev_amount e) groups)
            events [].

Definition merge_left (timeline : list date) (daily : list (date * float))
  : list (date * option float) :=
  flat_map
    (fun d =>
       match filter (fun g => date_eqb (fst g) d) daily with
       | [] => [(d, None)]
       | ms => map (fun g => (d, Some (snd g))) ms
       end)
    timeline.

Definition fillna (v : float) (x : option float) : float :=
  match x with Some a => a | None => v end.

Fixpoint cumsum_from (acc : float) (l : list float) : list float :=
  match l with
  | [] => []
  | x :: rest => (acc + x)%float :: cumsum_from (acc + x)%float rest
  end.

(** The first entry of a cumulative sum is the first value itself. *)
Definition cumsum (l : list float) : list float :=
  match l with
  | [] => []
  | x :: rest => x :: cumsum_from x rest
  end.

Definition project_balance (start_balance : float) (events : list event)
  (start_date end_date : date) : list row :=
  let timeline := date_range start_date end_date in
  let merged : list (date * float) :=
    match events with
    | _ :: _ =>
        let daily := groupby_sum events in
        map (fun r => (fst r, fillna zero (snd r))) (merge_left timeline daily)
    | [] => map (fun d => (d, zero)) timeline
    end in
  let balance :=
    map (fun c => (start_balance + c)%float) (cumsum (map snd merged)) in
  map (fun rb => mkRow (fst (fst rb)) (snd rb) (snd (fst rb)))
      (combine merged balance).

(** The floats that Python writes 0.1 and 0.2. *)
Definition one_tenth : float := (1 / 10)%float.
Definition two_tenths : float := (2 / 10)%float.

End FloatAmounts.

(* ================================================================== *)
(** ** The expansion over a date type that ends *)
(* ================================================================== *)

(** [datetime.MAXYEAR] *)
Definition MAXYEAR : Z := 9999.

Module Bounded.

(** The exceptions of the date type: [replace] raises [ValueError] for
    fields that name no date, adding a [timedelta] raises [OverflowError]
    when the result is past the last date. *)
Inductive exn : Type := ValueError | OverflowError.

(** [_check_date_fields], with the upper bound on the year. *)
Definition in_range (d : date) : bool :=
  valid_dateb d && (year d <=? MAXYEAR).

(** [d + timedelta(days=n)] *)
Definition add_days (n : nat) (d : date) : exn + date :=
  let d' := Calendar.add_days n d in
  if year d' <=? MAXYEAR then inr d' else inl OverflowError.

Definition replace (d : date) (y m dd : option Z) : exn + date :=
  let d' := mkDate (match y with Some v => v | None => year d end)
                   (match m with Some v => v | None => month d end)
                   (match dd with Some v => v | None => day d end) in
  if in_range d' then inr d' else inl ValueError.

Definition advance (freq : string) (current : date) : exn + date :=
  if String.eqb freq "Daily" then add_days 1 current
  else if String.eqb freq "Weekly" then add_days 7 current
  else if String.eqb freq "Monthly" then
    let month := month current in
    let year := year current in
    if month =? 12
    then replace current (Some (year + 1)) (Some 1) None
    else replace current None (Some (month + 1)) None
  else if String.eqb freq "Yearly" then
    match replace current (Some (year current + 1)) None None with
    | inr c => inr c
    | inl ValueError =>
        replace current (Some (year current + 1)) (Some 2) (Some 28)
    | inl e => inl e
    end
  else inr current.

Inductive outcome : Type :=
| Running (s : loop_state)
| Returned (df : list (date * Z))
| Raised (e : exn).

Definition loop_step (end_date : date) (amount : Z) (freq : string)
  (s : loop_state) : outcome :=
  if date_leb (current s) end_date then
    let dates' := dates s ++ [current s] in
    match advance freq (current s) with
    | inr c => Running (mkLoop c dates')
    | inl e => Raised e
    end
  else Returned (map (fun d => (d, amount)) (dates s)).

Fixpoint loop_iterate (end_date : date) (amount : Z) (freq : string)
  (fuel : nat) (s : loop_state) : outcome :=
  match fuel with
  | O => Running s
  | S k =>
      match loop_step end_date amount freq s with
      | Running s' => loop_iterate end_date amount freq k s'
      | o => o
      end
  end.

Definition generate_recurring_events (fuel : nat)
  (start_date end_date : date) (amount : Z) (freq : string) : outcome :=
  loop_iterate end_date amount freq fuel (mkLoop start_date []).

End Bounded.


(* ================================================================== *)
(** ** Auxiliary definitions of the proofs *)
(* ================================================================== *)

(** What holds of the local variables each time the loop test is reached. *)
Definition loop_invariant (end_date start_date : date) (s : loop_state)
  : Prop :=
  valid_date (current s) /\
  date_le start_date (current s) /\
  Forall (fun d => date_le start_date d /\ date_le d end_date /\
                   date_lt d (current s)) (dates s) /\
  StronglySorted date_lt (dates s).

(** The sum kept for a key of the grouped frame. *)
Fixpoint group_lookup (d : date) (groups : list (date * Z)) : option Z :=
  match groups with
  | [] => None
  | (k, s) :: rest => if date_eqb k d then Some s else group_lookup d rest
  end.

Definition on_day (d : date) (e : event) : bool := date_eqb (ev_date e) d.

Definition groups_sorted (groups : list (date * Z)) : Prop :=
  StronglySorted (fun g h => date_lt (fst g) (fst h)) groups.

(** The grouped frame after the rows [pre] have been folded in. *)
Definition groups_of (pre : list event) (groups : list (date * Z)) : Prop :=
  groups_sorted groups /\
  forall d, group_lookup d groups =
            if existsb (on_day d) pre then Some (net_amount pre d) else None.

(** The timeline written as one pass over the day grid with the running
    balance in [acc]. *)
Fixpoint timeline_rows (events : list event) (acc : Z) (days : list date)
  : list row :=
  match days with
  | [] => []
  | d :: rest =>
      let a := net_amount events d in
      mkRow d (acc + a) a :: timeline_rows events (acc + a) rest
  end.

(** Every bill of the session has an amount that is not positive. *)
Definition bills_non_positive (a : app) : Prop :=
  Forall (fun b => amount b <= 0) (bills (session a)).

(** The session of the scenario: a first start without a data file, then
    one bill of -50 added, monthly from 2025-01-01 to 2025-04-01. *)
Definition scenario_session : session_state :=
  session
    (add_handler
       (mkSidebar "Bill (expense)" "rent" (-50) "Monthly"
                  (mkDate 2025 1 1) (mkDate 2025 4 1))
       (startup None)).

(* ================================================================== *)
(** ** Facts about the calendar *)
(* ================================================================== *)

Section CalendarFacts.

Lemma date_eqb_eq a b : date_eqb a b = true <-> a = b.
Proof.
  unfold date_eqb. destruct a as [y1 m1 d1], b as [y2 m2 d2]; simpl.
  rewrite !andb_true_iff, !Z.eqb_eq. split.
  - intros [[-> ->] ->]. reflexivity.
  - intros H. injection H as -> -> ->. auto.
Qed.

Lemma date_eqb_refl a : date_eqb a a = true.
Proof. apply date_eqb_eq. reflexivity. Qed.

Lemma date_eqb_neq a b : date_eqb a b = false <-> a <> b.
Proof.
  split.
  - intros H E. apply date_eqb_eq in E. congruence.
  - intros H. destruct (date_eqb a b) eqn:E; auto.
    apply date_eqb_eq in E. contradiction.
Qed.

Lemma date_eqb_sym a b : date_eqb a b = date_eqb b a.
Proof.
  destruct (date_eqb a b) eqn:E.
  - apply date_eqb_eq in E. subst. symmetry. apply date_eqb_refl.
  - symmetry. apply date_eqb_neq. apply date_eqb_neq in E. congruence.
Qed.

Lemma date_lt_spec a b :
  date_lt a b <->
  year a < year b \/
  (year a = year b /\ (month a < month b \/ (month a = month b /\ day a < day b))).
Proof.
  unfold date_lt, date_ltb.
  rewrite !orb_true_iff, !andb_true_iff, !orb_true_iff, !andb_true_iff,
    !Z.ltb_lt, !Z.eqb_eq.
  tauto.
Qed.

Lemma date_le_spec a b : date_le a b <-> date_lt a b \/ a = b.
Proof.
  unfold date_le, date_leb. rewrite orb_true_iff, date_eqb_eq. reflexivity.
Qed.

Lemma date_lt_irrefl a : ~ date_lt a a.
Proof. rewrite date_lt_spec. lia. Qed.

Lemma date_lt_trans a b c : date_lt a b -> date_lt b c -> date_lt a c.
Proof. rewrite !date_lt_spec. lia. Qed.

Lemma date_le_refl a : date_le a a.
Proof. apply date_le_spec. right. reflexivity. Qed.

Lemma date_le_trans a b c : date_le a b -> date_le b c -> date_le a c.
Proof.
  rewrite !date_le_spec. intros [H1 | ->] [H2 | ->]; auto.
  left. eapply date_lt_trans; eauto.
Qed.

Lemma date_lt_le_trans a b c : date_lt a b -> date_le b c -> date_lt a c.
Proof.
  rewrite date_le_spec. intros H1 [H2 | ->]; auto.
  eapply date_lt_trans; eauto.
Qed.

Lemma date_le_lt_trans a b c : date_le a b -> date_lt b c -> date_lt a c.
Proof.
  rewrite date_le_spec. intros [H1 | ->] H2; auto.
  eapply date_lt_trans; eauto.
Qed.

Lemma date_lt_le a b : date_lt a b -> date_le a b.
Proof. intros. apply date_le_spec. auto. Qed.

Lemma date_trichotomy a b : date_lt a b \/ a = b \/ date_lt b a.
Proof.
  rewrite !date_lt_spec.
  destruct a as [y1 m1 d1], b as [y2 m2 d2]; simpl.
  destruct (Z.lt_trichotomy y1 y2) as [?|[?|?]]; try lia.
  destruct (Z.lt_trichotomy m1 m2) as [?|[?|?]]; try lia.
  destruct (Z.lt_trichotomy d1 d2) as [?|[?|?]]; try lia.
  subst. auto.
Qed.

Lemma date_leb_false a b : date_leb a b = false <-> date_lt b a.
Proof.
  split.
  - intros H. destruct (date_trichotomy a b) as [L | [E | L]]; auto.
    + apply date_lt_le in L. unfold date_le in L. congruence.
    + subst. pose proof (date_le_refl b) as L. unfold date_le in L. congruence.
  - intros H. destruct (date_leb a b) eqn:E; auto.
    apply date_le_spec in E. destruct E as [E | ->].
    + exfalso. eapply date_lt_irrefl. eapply date_lt_trans; eauto.
    + exfalso. eapply date_lt_irrefl; eauto.
Qed.

Lemma date_ltb_false a b : date_ltb a b = false <-> date_le b a.
Proof.
  split.
  - intros H. destruct (date_trichotomy a b) as [L | [E | L]].
    + unfold date_lt in L. congruence.
    + subst. apply date_le_refl.
    + apply date_lt_le. assumption.
  - intros H. destruct (date_ltb a b) eqn:E; auto.
    exfalso. apply (date_lt_irrefl a). eapply date_lt_le_trans; eauto.
Qed.

(** *** Validity, ordinals and the successor *)

Lemma valid_date_spec d :
  valid_date d <->
  1 <= year d /\ 1 <= month d <= 12 /\
  1 <= day d <= days_in_month (year d) (month d).
Proof.
  unfold valid_date, valid_dateb.
  rewrite !andb_true_iff, !Z.leb_le. tauto.
Qed.

Ltac month_cases m :=
  assert (m = 1 \/ m = 2 \/ m = 3 \/ m = 4 \/ m = 5 \/ m = 6 \/
          m = 7 \/ m = 8 \/ m = 9 \/ m = 10 \/ m = 11 \/ m = 12)
    as Hmonth_cases by lia;
  destruct Hmonth_cases as [?|[?|[?|[?|[?|[?|[?|[?|[?|[?|[?|?]]]]]]]]]]];
  subst m.

Lemma days_in_month_bounds y m :
  1 <= m <= 12 -> 28 <= days_in_month y m <= 31.
Proof.
  intros H. unfold days_in_month.
  month_cases m; simpl; destruct (is_leap y); simpl; lia.
Qed.

Lemma days_before_month_succ y m :
  1 <= m < 12 ->
  days_before_month y (m + 1) = days_before_month y m + days_in_month y m.
Proof.
  intros H. unfold days_before_month, days_in_month.
  month_cases m; simpl; destruct (is_leap y); simpl; lia.
Qed.

Lemma days_before_month_december y :
  days_before_month y 12 + days_in_month y 12 = days_in_year y.
Proof.
  unfold days_before_month, days_in_month, days_in_year.
  simpl. destruct (is_leap y); simpl; lia.
Qed.

Lemma days_before_month_january y : days_before_month y 1 = 0.
Proof. reflexivity. Qed.

Lemma days_before_year_succ y :
  days_before_year (y + 1) = days_before_year y + days_in_year y.
Proof.
  unfold days_before_year, days_in_year, is_leap.
  replace (y + 1 - 1) with y by lia.
  destruct (y mod 4 =? 0) eqn:E4; destruct (y mod 100 =? 0) eqn:E100;
    destruct (y mod 400 =? 0) eqn:E400; simpl;
    rewrite ?Z.eqb_eq, ?Z.eqb_neq in *;
    Z.div_mod_to_equations; lia.
Qed.

Lemma days_in_year_bounds y : 365 <= days_in_year y <= 366.
Proof. unfold days_in_year. destruct (is_leap y); lia. Qed.

Lemma days_before_year_mono y1 y2 :
  y1 <= y2 -> days_before_year y1 <= days_before_year y2.
Proof.
  intros H. replace y2 with (y1 + Z.of_nat (Z.to_nat (y2 - y1))) by lia.
  induction (Z.to_nat (y2 - y1)) as [|n IH].
  - rewrite Z.add_0_r. lia.
  - replace (y1 + Z.of_nat (S n)) with (y1 + Z.of_nat n + 1) by lia.
    rewrite days_before_year_succ.
    pose proof (days_in_year_bounds (y1 + Z.of_nat n)). lia.
Qed.

Lemma days_before_month_mono y m1 m2 :
  1 <= m1 -> m1 < m2 -> m2 <= 12 ->
  days_before_month y m1 + days_in_month y m1 <= days_before_month y m2.
Proof.
  intros H1 H2 H3.
  replace m2 with (m1 + 1 + Z.of_nat (Z.to_nat (m2 - m1 - 1))) by lia.
  assert (Hb : m1 + 1 + Z.of_nat (Z.to_nat (m2 - m1 - 1)) <= 12) by lia.
  induction (Z.to_nat (m2 - m1 - 1)) as [|n IH].
  - rewrite Z.add_0_r, days_before_month_succ by lia. lia.
  - replace (m1 + 1 + Z.of_nat (S n)) with (m1 + 1 + Z.of_nat n + 1) in * by lia.
    rewrite days_before_month_succ by lia.
    pose proof (days_in_month_bounds y (m1 + 1 + Z.of_nat n)). lia.
Qed.

Lemma days_before_month_bound y m :
  1 <= m <= 12 ->
  0 <= days_before_month y m /\
  days_before_month y m + days_in_month y m <= days_in_year y.
Proof.
  intros H. unfold days_before_month, days_in_month, days_in_year.
  month_cases m; simpl; destruct (is_leap y); simpl; lia.
Qed.

Lemma next_day_valid d : valid_date d -> valid_date (next_day d).
Proof.
  rewrite !valid_date_spec. intros (Hy & Hm & Hd). unfold next_day.
  destruct (day d <? days_in_month (year d) (month d)) eqn:E.
  - apply Z.ltb_lt in E. simpl. lia.
  - destruct (month d <? 12) eqn:E'; simpl.
    + apply Z.ltb_lt in E'.
      pose proof (days_in_month_bounds (year d) (month d + 1)). lia.
    + pose proof (days_in_month_bounds (year d + 1) 1). lia.
Qed.

Lemma toordinal_next_day d :
  valid_date d -> toordinal (next_day d) = toordinal d + 1.
Proof.
  rewrite valid_date_spec. intros (Hy & Hm & Hd). unfold next_day, toordinal.
  destruct (day d <? days_in_month (year d) (month d)) eqn:E.
  - simpl. lia.
  - apply Z.ltb_ge in E. destruct (month d <? 12) eqn:E'; simpl.
    + apply Z.ltb_lt in E'. rewrite days_before_month_succ by lia. lia.
    + apply Z.ltb_ge in E'. assert (Hm12 : month d = 12) by lia.
      rewrite days_before_year_succ, days_before_month_january.
      pose proof (days_before_month_december (year d)) as Hdec.
      rewrite Hm12 in *. lia.
Qed.

Lemma next_day_lt d : valid_date d -> date_lt d (next_day d).
Proof.
  rewrite valid_date_spec. intros (Hy & Hm & Hd).
  apply date_lt_spec. unfold next_day.
  destruct (day d <? days_in_month (year d) (month d)) eqn:E.
  - simpl. lia.
  - destruct (month d <? 12) eqn:E'; simpl.
    + lia.
    + lia.
Qed.

Lemma toordinal_lt a b :
  valid_date a -> valid_date b -> date_lt a b -> toordinal a < toordinal b.
Proof.
  rewrite !valid_date_spec, date_lt_spec.
  intros (Hya & Hma & Hda) (Hyb & Hmb & Hdb) H. unfold toordinal.
  destruct H as [Hy | [Hy [Hm | [Hm Hd]]]].
  - pose proof (days_before_month_bound (year a) (month a) Hma).
    pose proof (days_before_month_bound (year b) (month b) Hmb).
    pose proof (days_before_year_mono (year a + 1) (year b) ltac:(lia)) as Hmono.
    rewrite days_before_year_succ in Hmono. lia.
  - rewrite <- Hy in *.
    pose proof (days_before_month_mono (year a) (month a) (month b)
                  ltac:(lia) Hm ltac:(lia)). lia.
  - rewrite <- Hy, <- Hm in *. lia.
Qed.

Lemma toordinal_le a b :
  valid_date a -> valid_date b -> date_le a b -> toordinal a <= toordinal b.
Proof.
  intros Ha Hb H. apply date_le_spec in H. destruct H as [H | ->]; [|lia].
  pose proof (toordinal_lt a b Ha Hb H). lia.
Qed.

Lemma toordinal_lt_inv a b :
  valid_date a -> valid_date b -> toordinal a < toordinal b -> date_lt a b.
Proof.
  intros Ha Hb H. destruct (date_trichotomy a b) as [L | [E | L]]; auto.
  - subst. lia.
  - pose proof (toordinal_lt b a Hb Ha L). lia.
Qed.

Lemma toordinal_inj a b :
  valid_date a -> valid_date b -> toordinal a = toordinal b -> a = b.
Proof.
  intros Ha Hb H. destruct (date_trichotomy a b) as [L | [E | L]]; auto.
  - pose proof (toordinal_lt a b Ha Hb L). lia.
  - pose proof (toordinal_lt b a Hb Ha L). lia.
Qed.

Lemma toordinal_le_inv a b :
  valid_date a -> valid_date b -> toordinal a <= toordinal b -> date_le a b.
Proof.
  intros Ha Hb H. apply date_le_spec.
  destruct (Z.eq_dec (toordinal a) (toordinal b)) as [E | N].
  - right. apply toordinal_inj; auto.
  - left. apply toordinal_lt_inv; auto. lia.
Qed.

Lemma add_days_valid n d : valid_date d -> valid_date (add_days n d).
Proof.
  revert d. induction n as [|n IH]; intros d H; simpl; auto.
  apply IH. apply next_day_valid. assumption.
Qed.

Lemma toordinal_add_days n d :
  valid_date d -> toordinal (add_days n d) = toordinal d + Z.of_nat n.
Proof.
  revert d. induction n as [|n IH]; intros d H.
  - simpl. lia.
  - cbn [add_days]. rewrite IH by (apply next_day_valid; assumption).
    rewrite toordinal_next_day by assumption. lia.
Qed.

Lemma replace_inr d y m dd c :
  replace d y m dd = inr c ->
  valid_date c /\
  c = mkDate (match y with Some v => v | None => year d end)
             (match m with Some v => v | None => month d end)
             (match dd with Some v => v | None => day d end).
Proof.
  unfold replace. intros H.
  destruct (valid_dateb _) eqn:E; [|discriminate].
  injection H as <-. split; [exact E | reflexivity].
Qed.

End CalendarFacts.

(* ================================================================== *)
(** ** Facts about the expansion loop *)
(* ================================================================== *)

Section ExpansionFacts.

(** *** The four branches *)

Lemma advance_daily c : advance "Daily" c = inr (add_days 1 c).
Proof. reflexivity. Qed.

Lemma advance_weekly c : advance "Weekly" c = inr (add_days 7 c).
Proof. reflexivity. Qed.

Lemma advance_monthly c :
  advance "Monthly" c =
  if month c =? 12
  then replace c (Some (year c + 1)) (Some 1) None
  else replace c None (Some (month c + 1)) None.
Proof. reflexivity. Qed.

Lemma advance_yearly c :
  advance "Yearly" c =
  match replace c (Some (year c + 1)) None None with
  | inr c' => inr c'
  | inl ValueError => replace c (Some (year c + 1)) (Some 2) (Some 28)
  end.
Proof. reflexivity. Qed.

Lemma advance_unrecognised freq c : ~ recognised freq -> advance freq c = inr c.
Proof.
  intros H. unfold advance.
  destruct (String.eqb freq "Daily") eqn:E1.
  { apply String.eqb_eq in E1. exfalso. apply H. red. auto. }
  destruct (String.eqb freq "Weekly") eqn:E2.
  { apply String.eqb_eq in E2. exfalso. apply H. red. auto. }
  destruct (String.eqb freq "Monthly") eqn:E3.
  { apply String.eqb_eq in E3. exfalso. apply H. red. auto. }
  destruct (String.eqb freq "Yearly") eqn:E4.
  { apply String.eqb_eq in E4. exfalso. apply H. red. auto. }
  reflexivity.
Qed.

(** Every branch that completes yields a date of the calendar that is at
    least one day later. *)
Lemma advance_strict freq c c' :
  recognised freq -> valid_date c -> advance freq c = inr c' ->
  valid_date c' /\ date_lt c c' /\ toordinal c + 1 <= toordinal c'.
Proof.
  intros Hf Hc Hadv.
  assert (Hgen : valid_date c' /\ date_lt c c' ->
                 valid_date c' /\ date_lt c c' /\ toordinal c + 1 <= toordinal c').
  { intros [Hv Hlt]. pose proof (toordinal_lt c c' Hc Hv Hlt). repeat split; auto. lia. }
  destruct Hf as [-> | [-> | [-> | ->]]].
  - assert (Hc' : c' = add_days 1 c)
      by (rewrite advance_daily in Hadv; injection Hadv; auto).
    clear Hadv Hgen. subst c'.
    pose proof (add_days_valid 1 c Hc) as Hv.
    pose proof (toordinal_add_days 1 c Hc) as Ho.
    split; [exact Hv|]. split; [|lia].
    apply toordinal_lt_inv; auto. lia.
  - assert (Hc' : c' = add_days 7 c)
      by (rewrite advance_weekly in Hadv; injection Hadv; auto).
    clear Hadv Hgen. subst c'.
    pose proof (add_days_valid 7 c Hc) as Hv.
    pose proof (toordinal_add_days 7 c Hc) as Ho.
    split; [exact Hv|]. split; [|lia].
    apply toordinal_lt_inv; auto. lia.
  - rewrite advance_monthly in Hadv. apply Hgen.
    apply valid_date_spec in Hc.
    destruct (month c =? 12) eqn:E;
      apply replace_inr in Hadv; destruct Hadv as [Hv ->]; split; auto;
      apply date_lt_spec; simpl; lia.
  - rewrite advance_yearly in Hadv. apply Hgen.
    destruct (replace c (Some (year c + 1)) None None) as [[]|c1] eqn:E.
    + apply replace_inr in Hadv. destruct Hadv as [Hv ->]. split; auto.
      apply date_lt_spec; simpl; lia.
    + injection Hadv as <-. apply replace_inr in E. destruct E as [Hv ->].
      split; auto. apply date_lt_spec; simpl; lia.
Qed.

(** The yearly branch never lets the exception escape. *)
Lemma advance_yearly_total c :
  valid_date c -> exists c', advance "Yearly" c = inr c'.
Proof.
  intros Hc. rewrite advance_yearly.
  destruct (replace c (Some (year c + 1)) None None) as [[]|c1] eqn:E.
  - unfold replace. simpl.
    assert (Hv : valid_dateb (mkDate (year c + 1) 2 28) = true).
    { apply valid_date_spec. apply valid_date_spec in Hc. simpl.
      pose proof (days_in_month_bounds (year c + 1) 2). lia. }
    rewrite Hv. eauto.
  - eauto.
Qed.

(** The monthly branch completes when the day exists in every month. *)
Lemma advance_monthly_total c :
  valid_date c -> day c <= 28 ->
  exists c', advance "Monthly" c = inr c' /\ day c' <= 28.
Proof.
  intros Hc Hd. rewrite advance_monthly. apply valid_date_spec in Hc.
  unfold replace. simpl.
  destruct (month c =? 12) eqn:E.
  - assert (Hv : valid_dateb (mkDate (year c + 1) 1 (day c)) = true).
    { apply valid_date_spec. simpl.
      pose proof (days_in_month_bounds (year c + 1) 1). lia. }
    rewrite Hv. eexists. split; [reflexivity | simpl; lia].
  - apply Z.eqb_neq in E.
    assert (Hv : valid_dateb (mkDate (year c) (month c + 1) (day c)) = true).
    { apply valid_date_spec. simpl.
      pose proof (days_in_month_bounds (year c) (month c + 1)). lia. }
    rewrite Hv. eexists. split; [reflexivity | simpl; lia].
Qed.

(** *** Invariants of the loop *)

Variables (end_date : date) (amount : Z) (freq : string).

Lemma loop_iterate_invariant (P : loop_state -> Prop) :
  (forall s s', P s -> loop_step end_date amount freq s = Running s' -> P s') ->
  forall fuel s, P s ->
    match loop_iterate end_date amount freq fuel s with
    | Running s' => P s'
    | o => exists s', P s' /\ loop_step end_date amount freq s' = o
    end.
Proof.
  intros Hstep. induction fuel as [|k IH]; intros s Hs; simpl; auto.
  destruct (loop_step end_date amount freq s) as [s1 | df | e] eqn:E.
  - apply IH. eapply Hstep; eauto.
  - eauto.
  - eauto.
Qed.

Lemma loop_step_running s s' :
  loop_step end_date amount freq s = Running s' ->
  date_le (current s) end_date /\
  advance freq (current s) = inr (current s') /\
  dates s' = dates s ++ [current s].
Proof.
  unfold loop_step. destruct (date_leb (current s) end_date) eqn:E; [|discriminate].
  destruct (advance freq (current s)) as [e|c] eqn:A; [discriminate|].
  intros H. injection H as <-. simpl. auto.
Qed.

Lemma loop_step_returned s df :
  loop_step end_date amount freq s = Returned df ->
  date_lt end_date (current s) /\ df = map (fun d => (d, amount)) (dates s).
Proof.
  unfold loop_step. destruct (date_leb (current s) end_date) eqn:E.
  - destruct (advance freq (current s)); discriminate.
  - intros H. injection H as <-. split; auto. apply date_leb_false. exact E.
Qed.

Lemma StronglySorted_snoc {A} (R : A -> A -> Prop) l a :
  StronglySorted R l -> Forall (fun x => R x a) l -> StronglySorted R (l ++ [a]).
Proof.
  induction 1 as [|x l Hs IH Hx]; intros Hall; simpl.
  - repeat constructor.
  - inversion Hall as [|? ? Hxa Hla]; subst. constructor; auto.
    apply Forall_app. split; auto.
Qed.

Lemma loop_invariant_init start_date :
  valid_date start_date -> loop_invariant end_date start_date (mkLoop start_date []).
Proof.
  intros H. repeat split; simpl; auto using date_le_refl. constructor.
Qed.

Lemma loop_invariant_step start_date s s' :
  recognised freq ->
  loop_invariant end_date start_date s ->
  loop_step end_date amount freq s = Running s' ->
  loop_invariant end_date start_date s'.
Proof.
  intros Hf (Hv & Hle & Hall & Hsrt) Hstep.
  apply loop_step_running in Hstep. destruct Hstep as (Hguard & Hadv & Hdates).
  destruct (advance_strict _ _ _ Hf Hv Hadv) as (Hv' & Hlt & _).
  unfold loop_invariant. rewrite Hdates. repeat split; auto.
  - apply date_lt_le. eapply date_le_lt_trans; eauto.
  - apply Forall_app. split.
    + eapply Forall_impl; [|exact Hall]. simpl. intros d (H1 & H2 & H3).
      repeat split; auto. eapply date_lt_trans; eauto.
    + constructor; [|constructor]. auto.
  - apply StronglySorted_snoc; auto.
    eapply Forall_impl; [|exact Hall]. simpl. tauto.
Qed.

Lemma emitted_in_range_sorted fuel start_date :
  recognised freq -> valid_date start_date ->
  let ds := emitted (generate_recurring_events fuel start_date end_date amount freq) in
  Forall (fun d => date_le start_date d /\ date_le d end_date) ds /\
  StronglySorted date_lt ds.
Proof.
  intros Hf Hs. unfold generate_recurring_events.
  pose proof (loop_iterate_invariant (loop_invariant end_date start_date)
                (fun s s' => loop_invariant_step start_date s s' Hf)
                fuel _ (loop_invariant_init start_date Hs)) as H.
  destruct (loop_iterate end_date amount freq fuel (mkLoop start_date []))
    as [s | df | e]; simpl.
  - destruct H as (_ & _ & Hall & Hsrt). split; auto.
    eapply Forall_impl; [|exact Hall]. simpl. tauto.
  - destruct H as (s' & (_ & _ & Hall & Hsrt) & Hret).
    apply loop_step_returned in Hret. destruct Hret as [_ ->].
    rewrite map_map. simpl. rewrite map_id. split; auto.
    eapply Forall_impl; [|exact Hall]. simpl. tauto.
  - split; constructor.
Qed.

(** *** Termination *)

Lemma loop_iterate_terminates fuel s :
  recognised freq -> valid_date end_date ->
  valid_date (current s) ->
  Z.max 0 (toordinal end_date - toordinal (current s) + 1) < Z.of_nat fuel ->
  terminated (loop_iterate end_date amount freq fuel s).
Proof.
  intros Hf He. revert s. induction fuel as [|k IH]; intros s Hv Hfuel.
  - simpl in Hfuel. lia.
  - simpl. destruct (loop_step end_date amount freq s) as [s1 | df | e] eqn:E;
      simpl; auto.
    apply loop_step_running in E. destruct E as (Hguard & Hadv & _).
    destruct (advance_strict _ _ _ Hf Hv Hadv) as (Hv' & _ & Hord).
    pose proof (toordinal_le _ _ Hv He Hguard).
    apply IH; auto. lia.
Qed.

Lemma loop_iterate_returns (P : date -> Prop) fuel s :
  recognised freq -> valid_date end_date ->
  (forall c, valid_date c -> P c -> exists c', advance freq c = inr c' /\ P c') ->
  valid_date (current s) -> P (current s) ->
  Z.max 0 (toordinal end_date - toordinal (current s) + 1) < Z.of_nat fuel ->
  exists df, loop_iterate end_date amount freq fuel s = Returned df.
Proof.
  intros Hf He Htotal. revert s. induction fuel as [|k IH]; intros s Hv HP Hfuel.
  - simpl in Hfuel. lia.
  - simpl. unfold loop_step.
    destruct (date_leb (current s) end_date) eqn:Hguard; [|eauto].
    destruct (Htotal _ Hv HP) as (c' & Hadv & HP'). rewrite Hadv.
    destruct (advance_strict _ _ _ Hf Hv Hadv) as (Hv' & _ & Hord).
    pose proof (toordinal_le _ _ Hv He Hguard).
    apply IH; simpl; auto. lia.
Qed.

(** A frequency outside the four leaves [current] where it is: after any
    number of passes the loop is still running on the start date. *)
Lemma loop_iterate_stuck fuel s :
  ~ recognised freq -> date_le (current s) end_date ->
  loop_iterate end_date amount freq fuel s =
  Running (mkLoop (current s) (dates s ++ repeat (current s) fuel)).
Proof.
  intros Hf. revert s. induction fuel as [|k IH]; intros s Hguard.
  - simpl. rewrite app_nil_r. destruct s; reflexivity.
  - simpl. unfold loop_step. unfold date_le in Hguard. rewrite Hguard.
    rewrite advance_unrecognised by assumption.
    rewrite IH by (simpl; exact Hguard). simpl.
    rewrite <- app_assoc. reflexivity.
Qed.

End ExpansionFacts.

(* ================================================================== *)
(** ** Facts about the day grid *)
(* ================================================================== *)

Section DateRangeFacts.

Lemma date_range_from_length n d : List.length (date_range_from n d) = n.
Proof.
  revert d. induction n as [|n IH]; intros d; simpl; auto.
Qed.

Lemma date_range_from_nth n d i :
  (i < n)%nat -> nth_error (date_range_from n d) i = Some (add_days i d).
Proof.
  revert d i. induction n as [|n IH]; intros d i Hi; [lia|].
  destruct i as [|i]; simpl; auto. apply IH. lia.
Qed.

Lemma In_date_range_from n d x :
  In x (date_range_from n d) <-> exists i, (i < n)%nat /\ x = add_days i d.
Proof.
  revert d. induction n as [|n IH]; intros d; simpl.
  - split; [tauto | intros (i & Hi & _); lia].
  - rewrite IH. split.
    + intros [<- | (i & Hi & ->)].
      * exists O. split; [lia | reflexivity].
      * exists (S i). split; [lia | reflexivity].
    + intros (i & Hi & ->). destruct i as [|i]; simpl; auto.
      right. exists i. split; [lia | reflexivity].
Qed.

Lemma date_range_from_valid n d :
  valid_date d -> Forall valid_date (date_range_from n d).
Proof.
  intros H. apply Forall_forall. intros x Hx.
  apply In_date_range_from in Hx. destruct Hx as (i & _ & ->).
  apply add_days_valid. assumption.
Qed.

Lemma date_range_from_sorted n d :
  valid_date d -> StronglySorted date_lt (date_range_from n d).
Proof.
  revert d. induction n as [|n IH]; intros d Hd; simpl; constructor.
  - apply IH. apply next_day_valid. assumption.
  - apply Forall_forall. intros x Hx.
    apply In_date_range_from in Hx. destruct Hx as (i & _ & ->).
    pose proof (next_day_valid d Hd) as Hn.
    apply toordinal_lt_inv; auto using add_days_valid.
    rewrite toordinal_add_days, toordinal_next_day by assumption. lia.
Qed.

Lemma date_range_from_consecutive n d i a b :
  nth_error (date_range_from n d) i = Some a ->
  nth_error (date_range_from n d) (S i) = Some b ->
  b = next_day a.
Proof.
  revert d i. induction n as [|n IH]; intros d i Ha Hb.
  - destruct i; discriminate.
  - destruct i as [|i]; simpl in Ha, Hb.
    + injection Ha as <-. destruct n; simpl in Hb; [discriminate|].
      injection Hb as <-. reflexivity.
    + eapply IH; eauto.
Qed.

Lemma In_date_range start_date end_date x :
  valid_date start_date -> valid_date end_date ->
  In x (date_range start_date end_date) <->
  valid_date x /\ date_le start_date x /\ date_le x end_date.
Proof.
  intros Hs He. unfold date_range.
  destruct (date_leb start_date end_date) eqn:E.
  - pose proof (toordinal_le _ _ Hs He E) as Hord.
    rewrite In_date_range_from. split.
    + intros (i & Hi & ->).
      pose proof (add_days_valid i _ Hs) as Hv.
      pose proof (toordinal_add_days i _ Hs) as Ho.
      split; [exact Hv|]. split; apply toordinal_le_inv; auto; lia.
    + intros (Hx & H1 & H2).
      pose proof (toordinal_le _ _ Hs Hx H1).
      pose proof (toordinal_le _ _ Hx He H2).
      exists (Z.to_nat (toordinal x - toordinal start_date)). split; [lia|].
      apply toordinal_inj; auto using add_days_valid.
      rewrite toordinal_add_days by assumption. lia.
  - simpl. split; [tauto|]. intros (_ & H1 & H2).
    pose proof (date_le_trans _ _ _ H1 H2) as H. unfold date_le in H. congruence.
Qed.

Lemma date_range_length start_date end_date :
  valid_date start_date -> valid_date end_date ->
  date_le start_date end_date ->
  Z.of_nat (List.length (date_range start_date end_date)) =
  toordinal end_date - toordinal start_date + 1.
Proof.
  intros Hs He Hle. unfold date_range. unfold date_le in Hle. rewrite Hle.
  rewrite date_range_from_length.
  pose proof (toordinal_le _ _ Hs He Hle). lia.
Qed.

Lemma date_range_sorted start_date end_date :
  valid_date start_date -> StronglySorted date_lt (date_range start_date end_date).
Proof.
  intros Hs. unfold date_range.
  destruct (date_leb start_date end_date); [|constructor].
  apply date_range_from_sorted. assumption.
Qed.

Lemma date_range_consecutive start_date end_date i a b :
  nth_error (date_range start_date end_date) i = Some a ->
  nth_error (date_range start_date end_date) (S i) = Some b ->
  b = next_day a.
Proof.
  unfold date_range. destruct (date_leb start_date end_date).
  - apply date_range_from_consecutive.
  - destruct i; discriminate.
Qed.

Lemma date_range_head start_date end_date :
  valid_date start_date -> valid_date end_date ->
  date_le start_date end_date ->
  exists rest, date_range start_date end_date = start_date :: rest.
Proof.
  intros Hs He Hle. unfold date_range.
  pose proof (toordinal_le _ _ Hs He Hle) as Hord.
  unfold date_le in Hle. rewrite Hle.
  destruct (Z.to_nat (toordinal end_date - toordinal start_date + 1)) eqn:E; [lia|].
  simpl. eauto.
Qed.

Lemma StronglySorted_date_lt_NoDup l : StronglySorted date_lt l -> NoDup l.
Proof.
  induction 1 as [|x l Hs IH Hx]; constructor; auto.
  intros Hin. rewrite Forall_forall in Hx.
  apply (date_lt_irrefl x). auto.
Qed.

End DateRangeFacts.

(* ================================================================== *)
(** ** Facts about grouping, the merge and the running sum *)
(* ================================================================== *)

Section ProjectionFacts.

Lemma add_to_group_Forall (P : date -> Prop) d a groups :
  P d -> Forall (fun g => P (fst g)) groups ->
  Forall (fun g => P (fst g)) (add_to_group d a groups).
Proof.
  intros Hd. induction groups as [|[k s] rest IH]; intros Hall; simpl.
  - repeat constructor. exact Hd.
  - inversion Hall as [|? ? Hk Hrest]; subst. simpl in Hk.
    destruct (date_eqb k d); [|destruct (date_ltb d k)].
    + constructor; auto.
    + constructor; auto.
    + constructor; auto.
Qed.

Lemma add_to_group_sorted d a groups :
  groups_sorted groups -> groups_sorted (add_to_group d a groups).
Proof.
  unfold groups_sorted.
  induction 1 as [|[k s] rest Hs IH Hk]; simpl.
  - repeat constructor.
  - destruct (date_eqb k d) eqn:E; [|destruct (date_ltb d k) eqn:L].
    + constructor; auto.
    + constructor.
      * constructor; auto.
      * constructor; [exact L|].
        eapply Forall_impl; [|exact Hk]. simpl. intros g Hg.
        eapply date_lt_trans; eauto.
    + constructor; auto.
      apply (add_to_group_Forall (fun x => date_lt k x)); auto.
      apply date_ltb_false in L. apply date_le_spec in L.
      destruct L as [L | L]; auto.
      subst. rewrite date_eqb_refl in E. discriminate.
Qed.

Lemma group_lookup_above d groups :
  Forall (fun g => date_lt d (fst g)) groups -> group_lookup d groups = None.
Proof.
  induction 1 as [|[k s] rest Hk Hrest IH]; simpl; auto.
  simpl in Hk. destruct (date_eqb k d) eqn:E; auto.
  apply date_eqb_eq in E. subst. exfalso. eapply date_lt_irrefl; eauto.
Qed.

Lemma filter_key_above d (groups : list (date * Z)) :
  Forall (fun g => date_lt d (fst g)) groups ->
  filter (fun g => date_eqb (fst g) d) groups = [].
Proof.
  induction 1 as [|[k s] rest Hk Hrest IH]; simpl; auto.
  simpl in Hk. destruct (date_eqb k d) eqn:E; auto.
  apply date_eqb_eq in E. subst. exfalso. eapply date_lt_irrefl; eauto.
Qed.

Lemma group_lookup_add d d' a groups :
  groups_sorted groups ->
  group_lookup d (add_to_group d' a groups) =
  if date_eqb d' d
  then Some (match group_lookup d groups with Some s => s + a | None => a end)
  else group_lookup d groups.
Proof.
  unfold groups_sorted.
  induction 1 as [|[k s] rest Hs IH Hk]; simpl.
  - destruct (date_eqb d' d); reflexivity.
  - destruct (date_eqb k d') eqn:E; [|destruct (date_ltb d' k) eqn:L]; simpl.
    + apply date_eqb_eq in E. subst k.
      destruct (date_eqb d' d); reflexivity.
    + destruct (date_eqb d' d) eqn:E'; auto.
      apply date_eqb_eq in E'. subst d'. rewrite E.
      rewrite group_lookup_above; auto.
      eapply Forall_impl; [|exact Hk]. simpl. intros g Hg.
      eapply date_lt_trans; eauto.
    + destruct (date_eqb k d) eqn:E'.
      * apply date_eqb_eq in E'. subst k.
        rewrite date_eqb_sym, E. reflexivity.
      * exact IH.
Qed.

(** In a sorted grouped frame a key selects at most one row. *)
Lemma filter_key_lookup d groups :
  groups_sorted groups ->
  filter (fun g => date_eqb (fst g) d) groups =
  match group_lookup d groups with
  | Some s => [(d, s)]
  | None => []
  end.
Proof.
  unfold groups_sorted.
  induction 1 as [|[k s] rest Hs IH Hk]; simpl; auto.
  destruct (date_eqb k d) eqn:E; auto.
  apply date_eqb_eq in E. subst k.
  rewrite filter_key_above; auto.
Qed.

Lemma merge_left_lookup days daily :
  groups_sorted daily ->
  merge_left days daily = map (fun d => (d, group_lookup d daily)) days.
Proof.
  intros Hs. unfold merge_left.
  rewrite (flat_map_ext _ (fun d => [(d, group_lookup d daily)])).
  - induction days as [|d rest IH]; simpl; [reflexivity | rewrite IH; reflexivity].
  - intros d. rewrite filter_key_lookup by assumption.
    destruct (group_lookup d daily); reflexivity.
Qed.

Lemma net_amount_app evs1 evs2 d :
  net_amount (evs1 ++ evs2) d = net_amount evs1 d + net_amount evs2 d.
Proof.
  induction evs1 as [|e rest IH]; simpl; auto. rewrite IH. lia.
Qed.

Lemma net_amount_no_event evs d :
  existsb (on_day d) evs = false -> net_amount evs d = 0.
Proof.
  induction evs as [|e rest IH]; simpl; auto.
  unfold on_day at 1. intros H. apply orb_false_iff in H. destruct H as [H1 H2].
  rewrite H1, IH by assumption. reflexivity.
Qed.

Lemma groups_of_fold events :
  forall pre groups,
    groups_of pre groups ->
    groups_of (pre ++ events)
      (fold_left (fun g e => add_to_group (ev_date e) (ev_amount e) g)
                 events groups).
Proof.
  induction events as [|e rest IH]; intros pre groups [Hs Hl]; simpl.
  - rewrite app_nil_r. split; assumption.
  - replace (pre ++ e :: rest) with ((pre ++ [e]) ++ rest)
      by (rewrite <- app_assoc; reflexivity).
    apply IH. split.
    + apply add_to_group_sorted. assumption.
    + intros d. rewrite group_lookup_add by assumption.
      rewrite existsb_app, net_amount_app, Hl. simpl.
      unfold on_day. rewrite orb_false_r.
      destruct (date_eqb (ev_date e) d) eqn:E.
      * rewrite orb_true_r.
        destruct (existsb _ pre) eqn:X.
        -- f_equal. lia.
        -- fold (on_day d) in X.
           rewrite net_amount_no_event by assumption. f_equal. lia.
      * rewrite orb_false_r.
        destruct (existsb _ pre); [f_equal; lia | reflexivity].
Qed.

Lemma groupby_sum_spec events :
  groups_of events (groupby_sum events).
Proof.
  unfold groupby_sum.
  apply (groups_of_fold events [] []). split.
  - constructor.
  - intros d. reflexivity.
Qed.

Lemma fillna_lookup events d :
  fillna 0 (group_lookup d (groupby_sum events)) = net_amount events d.
Proof.
  destruct (groupby_sum_spec events) as [_ Hl]. rewrite Hl.
  destruct (existsb (on_day d) events) eqn:E; simpl; auto.
  symmetry. apply net_amount_no_event. assumption.
Qed.

Lemma cumsum_from_shift b acc l :
  map (fun c => b + c) (cumsum_from acc l) = cumsum_from (b + acc) l.
Proof.
  revert acc. induction l as [|x rest IH]; intros acc; simpl; auto.
  rewrite IH. f_equal; [lia | f_equal; lia].
Qed.

Lemma rows_of_cumsum events acc days :
  map (fun rb => mkRow (fst (fst rb)) (snd rb) (snd (fst rb)))
      (combine (map (fun d => (d, net_amount events d)) days)
               (cumsum_from acc
                  (map snd (map (fun d => (d, net_amount events d)) days))))
  = timeline_rows events acc days.
Proof.
  revert acc. induction days as [|d rest IH]; intros acc; simpl; auto.
  rewrite IH. reflexivity.
Qed.

(** [project_balance] is the running sum of the daily net amounts over
    the day grid. *)
Lemma project_balance_rows start_balance events start_date end_date :
  project_balance start_balance events start_date end_date =
  timeline_rows events start_balance (date_range start_date end_date).
Proof.
  unfold project_balance.
  set (days := date_range start_date end_date).
  assert (Hmerged :
            match events with
            | _ :: _ =>
                map (fun r => (fst r, fillna 0 (snd r)))
                    (merge_left days (groupby_sum events))
            | [] => map (fun d => (d, 0)) days
            end = map (fun d => (d, net_amount events d)) days).
  { destruct events as [|e rest]; [reflexivity|].
    rewrite merge_left_lookup by apply groupby_sum_spec.
    rewrite map_map. apply map_ext. intros d. simpl.
    rewrite fillna_lookup. reflexivity. }
  rewrite Hmerged. unfold cumsum. rewrite cumsum_from_shift.
  rewrite Z.add_0_r. apply rows_of_cumsum.
Qed.

Lemma timeline_rows_dates events acc days :
  map r_date (timeline_rows events acc days) = days.
Proof.
  revert acc. induction days as [|d rest IH]; intros acc; simpl; auto.
  rewrite IH. reflexivity.
Qed.

Lemma timeline_rows_ext events1 events2 acc days :
  Forall (fun d => net_amount events1 d = net_amount events2 d) days ->
  timeline_rows events1 acc days = timeline_rows events2 acc days.
Proof.
  intros H. revert acc. induction H as [|d rest Hd Hrest IH]; intros acc; simpl; auto.
  rewrite Hd, IH. reflexivity.
Qed.

Lemma timeline_rows_step events acc days i p r :
  nth_error (timeline_rows events acc days) i = Some p ->
  nth_error (timeline_rows events acc days) (S i) = Some r ->
  r_balance r - r_balance p = net_amount events (r_date r) /\
  r_amount r = net_amount events (r_date r).
Proof.
  revert acc i. induction days as [|d rest IH]; intros acc i Hp Hr.
  - destruct i; discriminate.
  - destruct i as [|i]; simpl in Hp, Hr.
    + injection Hp as <-. destruct rest as [|d' rest']; simpl in Hr; [discriminate|].
      injection Hr as <-. simpl. split; [lia | reflexivity].
    + eapply IH; eauto.
Qed.

End ProjectionFacts.

(* ================================================================== *)
(** ** Properties of [project_balance] *)
(* ================================================================== *)

Section ProjectionProperties.

Variables (start_balance : Z) (start_date end_date : date).
Hypothesis Hstart : valid_date start_date.
Hypothesis Hend : valid_date end_date.

(** C1 (for exact amounts).  Prefix-sum law: with amounts and balances
    that are added without rounding, in the timeline returned by
    [project_balance] every entry after the first has a balance that
    exceeds the balance of the entry before it by exactly the net amount
    of the events dated that entry's day, and the first entry, which is
    the start date, has balance [start_balance] plus the net amount of its
    own day. *)
Theorem project_balance_prefix_sum (events : list event)
  (Hrange : date_le start_date end_date) :
  let tl := project_balance start_balance events start_date end_date in
  (forall i p r,
      nth_error tl i = Some p -> nth_error tl (S i) = Some r ->
      r_balance r - r_balance p = net_amount events (r_date r)) /\
  (exists r0,
      nth_error tl 0 = Some r0 /\ r_date r0 = start_date /\
      r_balance r0 - start_balance = net_amount events (r_date r0)).
Proof.
  intros tl. subst tl. rewrite project_balance_rows. split.
  - intros i p r Hp Hr.
    destruct (timeline_rows_step _ _ _ _ _ _ Hp Hr) as [H _]. exact H.
  - destruct (date_range_head _ _ Hstart Hend Hrange) as [rest ->].
    simpl. eexists. split; [reflexivity|]. simpl. split; [reflexivity | lia].
Qed.

(** C6.  An event dated before [start_date] or after [end_date] does not
    change the projection, wherever it stands among the other events. *)
Theorem project_balance_ignores_outside (events1 events2 : list event)
  (e : event)
  (Hout : date_lt (ev_date e) start_date \/ date_lt end_date (ev_date e)) :
  project_balance start_balance (events1 ++ e :: events2) start_date end_date
  = project_balance start_balance (events1 ++ events2) start_date end_date.
Proof.
  rewrite !project_balance_rows. apply timeline_rows_ext.
  apply Forall_forall. intros d Hd.
  apply In_date_range in Hd; auto. destruct Hd as (_ & H1 & H2).
  rewrite !net_amount_app. simpl.
  destruct (date_eqb (ev_date e) d) eqn:E; [|lia].
  apply date_eqb_eq in E. subst d. exfalso.
  destruct Hout as [Hout | Hout].
  - apply (date_lt_irrefl start_date). eapply date_le_lt_trans; eauto.
  - apply (date_lt_irrefl end_date). eapply date_lt_le_trans; eauto.
Qed.

(** C7.  The dates of the timeline are exactly the calendar days from
    [start_date] to [end_date], both included: each such day occurs, all
    entries are such days, the dates ascend strictly (so none repeats),
    each entry is the day after the one before it (no gap), the number of
    entries is the number of days of the range, and it is one when the two
    dates are equal. *)
Theorem project_balance_one_entry_per_day (events : list event)
  (Hrange : date_le start_date end_date) :
  let days :=
    map r_date (project_balance start_balance events start_date end_date) in
  (forall d, In d days <->
             valid_date d /\ date_le start_date d /\ date_le d end_date) /\
  StronglySorted date_lt days /\
  NoDup days /\
  (forall i a b,
      nth_error days i = Some a -> nth_error days (S i) = Some b ->
      b = next_day a) /\
  Z.of_nat (List.length days) = toordinal end_date - toordinal start_date + 1 /\
  (start_date = end_date -> days = [start_date]).
Proof.
  intros days. subst days.
  rewrite project_balance_rows, timeline_rows_dates.
  split; [|split; [|split; [|split; [|split]]]].
  - intros d. apply In_date_range; assumption.
  - apply date_range_sorted. assumption.
  - apply StronglySorted_date_lt_NoDup. apply date_range_sorted. assumption.
  - intros i a b. apply date_range_consecutive.
  - apply date_range_length; assumption.
  - intros <-. unfold date_range. rewrite (date_le_refl start_date).
    replace (toordinal start_date - toordinal start_date + 1) with 1 by lia.
    reflexivity.
Qed.

End ProjectionProperties.

(* ================================================================== *)
(** ** Properties of [generate_recurring_events] *)
(* ================================================================== *)

Section ExpansionProperties.

Lemma loop_iterate_pass end_date amount freq k s c :
  date_le (current s) end_date ->
  advance freq (current s) = inr c ->
  loop_iterate end_date amount freq (S k) s =
  loop_iterate end_date amount freq k (mkLoop c (dates s ++ [current s])).
Proof.
  intros Hguard Hadv. simpl. unfold loop_step.
  unfold date_le in Hguard. rewrite Hguard, Hadv. reflexivity.
Qed.

Lemma loop_iterate_exit end_date amount freq k s :
  date_lt end_date (current s) ->
  loop_iterate end_date amount freq (S k) s =
  Returned (map (fun d => (d, amount)) (dates s)).
Proof.
  intros Hguard. simpl. unfold loop_step.
  apply date_leb_false in Hguard. rewrite Hguard. reflexivity.
Qed.

(** C2 (what the code does).  Yearly expansion from 2020-02-29 with an end
    date from 2024-02-28 up to 2025-02-27 returns exactly the dates
    2020-02-29, 2021-02-28, 2022-02-28, 2023-02-28 and 2024-02-28: once
    the day has fallen back to the 28th it stays there, also in the leap
    year 2024. *)
Theorem yearly_from_leap_day (end_date : date) (amount : Z) (fuel : nat)
  (Hfrom : date_le (mkDate 2024 2 28) end_date)
  (Hto : date_lt end_date (mkDate 2025 2 28)) :
  generate_recurring_events (6 + fuel) (mkDate 2020 2 29) end_date amount
    "Yearly"
  = Returned [(mkDate 2020 2 29, amount); (mkDate 2021 2 28, amount);
              (mkDate 2022 2 28, amount); (mkDate 2023 2 28, amount);
              (mkDate 2024 2 28, amount)].
Proof.
  unfold generate_recurring_events. cbn [Nat.add].
  assert (Hle : forall d, date_le d (mkDate 2024 2 28) -> date_le d end_date).
  { intros d H. eapply date_le_trans; eauto. }
  rewrite (loop_iterate_pass _ _ _ _ _ (mkDate 2021 2 28));
    [| apply Hle; reflexivity | reflexivity].
  rewrite (loop_iterate_pass _ _ _ _ _ (mkDate 2022 2 28));
    [| apply Hle; reflexivity | reflexivity].
  rewrite (loop_iterate_pass _ _ _ _ _ (mkDate 2023 2 28));
    [| apply Hle; reflexivity | reflexivity].
  rewrite (loop_iterate_pass _ _ _ _ _ (mkDate 2024 2 28));
    [| apply Hle; reflexivity | reflexivity].
  rewrite (loop_iterate_pass _ _ _ _ _ (mkDate 2025 2 28));
    [| apply Hle; reflexivity | reflexivity].
  rewrite loop_iterate_exit by exact Hto.
  reflexivity.
Qed.

(** C3 (the failing run).  Monthly expansion from 2025-01-31 to 2025-03-31
    raises [ValueError] on its first pass, for there is no 31st of
    February; the start date is not after the end date. *)
Theorem monthly_from_day_31_raises (amount : Z) (fuel : nat) :
  date_le (mkDate 2025 1 31) (mkDate 2025 3 31) /\
  generate_recurring_events (S fuel) (mkDate 2025 1 31) (mkDate 2025 3 31)
    amount "Monthly"
  = Raised ValueError.
Proof. split; reflexivity. Qed.

(** C4.  With one of the four frequencies every pass that completes moves
    [current] to a later date of the calendar, at least one day on, and the
    loop stops after finitely many passes, whatever the two dates are; with
    any other frequency and a start date not after the end date [current]
    stays at the start date and the loop is still running after any number
    of passes. *)
Theorem expansion_loop_termination (start_date end_date : date)
  (amount : Z) (freq : string)
  (Hstart : valid_date start_date) (Hend : valid_date end_date) :
  (recognised freq ->
   (forall c c', valid_date c -> advance freq c = inr c' ->
                 valid_date c' /\ date_lt c c' /\
                 toordinal c + 1 <= toordinal c') /\
   (exists fuel,
       terminated
         (generate_recurring_events fuel start_date end_date amount freq))) /\
  (~ recognised freq -> date_le start_date end_date ->
   forall fuel, exists s,
       generate_recurring_events fuel start_date end_date amount freq
       = Running s /\ current s = start_date).
Proof.
  split.
  - intros Hf. split.
    + intros c c' Hc Hadv. eapply advance_strict; eauto.
    + exists (Z.to_nat (Z.max 0 (toordinal end_date - toordinal start_date + 1)) + 1)%nat.
      unfold generate_recurring_events.
      apply loop_iterate_terminates; auto. simpl. lia.
  - intros Hf Hle fuel. unfold generate_recurring_events.
    rewrite loop_iterate_stuck by (simpl; auto).
    eexists. split; reflexivity.
Qed.

(** C5.  With one of the four frequencies and a start date not after the
    end date, the dates appended by the loop, after any number of passes
    and in the frame it returns, all lie between the start date and the end
    date and ascend strictly; the loop stops, and it returns a frame unless
    the frequency is Monthly with a start day after the 28th.  With a start
    date after the end date the frame returned is empty, whatever the
    frequency. *)
Theorem expansion_dates_in_range_increasing (start_date end_date : date)
  (amount : Z) (freq : string)
  (Hstart : valid_date start_date) (Hend : valid_date end_date) :
  (date_le start_date end_date -> recognised freq ->
   (forall fuel,
       let ds :=
         emitted
           (generate_recurring_events fuel start_date end_date amount freq) in
       Forall (fun d => date_le start_date d /\ date_le d end_date) ds /\
       StronglySorted date_lt ds) /\
   (exists fuel,
       terminated
         (generate_recurring_events fuel start_date end_date amount freq)) /\
   (freq <> "Monthly"%string \/ day start_date <= 28 ->
    exists fuel df,
      generate_recurring_events fuel start_date end_date amount freq
      = Returned df)) /\
  (date_lt end_date start_date ->
   forall fuel,
     generate_recurring_events (S fuel) start_date end_date amount freq
     = Returned []).
Proof.
  split.
  - intros Hle Hf. split; [|split].
    + intros fuel. apply emitted_in_range_sorted; assumption.
    + exists (Z.to_nat (Z.max 0 (toordinal end_date - toordinal start_date + 1)) + 1)%nat.
      unfold generate_recurring_events.
      apply loop_iterate_terminates; auto. simpl. lia.
    + intros Hcase.
      exists (Z.to_nat (Z.max 0 (toordinal end_date - toordinal start_date + 1)) + 1)%nat.
      unfold generate_recurring_events.
      assert (Hmonthly : freq = "Monthly"%string \/ freq <> "Monthly"%string).
      { destruct (String.eqb freq "Monthly") eqn:E.
        - left. apply String.eqb_eq. exact E.
        - right. apply String.eqb_neq. exact E. }
      destruct Hmonthly as [-> | Hnot].
      * destruct Hcase as [Hcase | Hday]; [congruence|].
        apply (loop_iterate_returns _ _ _ (fun c => day c <= 28)); auto.
        -- intros c Hc Hd. apply advance_monthly_total; assumption.
        -- simpl. lia.
      * apply (loop_iterate_returns _ _ _ (fun _ => True)); auto.
        -- intros c Hc _.
           destruct Hf as [-> | [-> | [-> | ->]]].
           ++ rewrite advance_daily. eauto.
           ++ rewrite advance_weekly. eauto.
           ++ congruence.
           ++ destruct (advance_yearly_total c Hc) as [c' Hc']. eauto.
        -- simpl. lia.
  - intros Hlt fuel. unfold generate_recurring_events.
    rewrite loop_iterate_exit by (simpl; exact Hlt). reflexivity.
Qed.

End ExpansionProperties.

(* ================================================================== *)
(** ** Properties of the handlers and of the projection tab *)
(* ================================================================== *)

Section HandlerProperties.

Lemma filter_name_none (remove : string) (l : list declaration) :
  Forall (fun b => name b <> remove) l ->
  filter (fun b => negb (String.eqb (name b) remove)) l = l.
Proof.
  induction 1 as [|b rest Hb Hrest IH]; simpl; auto.
  apply String.eqb_neq in Hb. rewrite Hb. simpl. rewrite IH. reflexivity.
Qed.

Lemma In_filter_name (remove : string) (l : list declaration) b :
  In b (filter (fun b => negb (String.eqb (name b) remove)) l) <->
  In b l /\ name b <> remove.
Proof.
  rewrite filter_In, negb_true_iff, String.eqb_neq. reflexivity.
Qed.

Lemma delete_bill_handler_eq remove a :
  remove <> "None"%string ->
  session (delete_bill_handler true remove a) =
  mkSession (filter (fun b => negb (String.eqb (name b) remove))
                    (bills (session a)))
            (income (session a)).
Proof.
  intros Hr. apply String.eqb_neq in Hr. unfold delete_bill_handler.
  destruct (bills (session a)) as [|b rest] eqn:E.
  - destruct a as [[bs ins] file]. simpl in *. subst. reflexivity.
  - rewrite Hr. reflexivity.
Qed.

Lemma delete_income_handler_eq remove a :
  remove <> "None"%string ->
  session (delete_income_handler true remove a) =
  mkSession (bills (session a))
            (filter (fun i => negb (String.eqb (name i) remove))
                    (income (session a))).
Proof.
  intros Hr. apply String.eqb_neq in Hr. unfold delete_income_handler.
  destruct (income (session a)) as [|b rest] eqn:E.
  - destruct a as [[bs ins] file]. simpl in *. subst. reflexivity.
  - rewrite Hr. reflexivity.
Qed.

(** C9 (as the code has it).  For a selected name other than the
    placeholder "None", either delete button replaces its collection by
    the entries whose name differs from the selection, in their order: no
    entry of that name remains, every other entry stays, the other
    collection is untouched, and the collection is unchanged when no entry
    has that name. *)
Theorem delete_removes_all_matching (remove : string) (a : app)
  (Hsel : remove <> "None"%string) :
  let s := session a in
  let sb := session (delete_bill_handler true remove a) in
  let si := session (delete_income_handler true remove a) in
  (bills sb = filter (fun b => negb (String.eqb (name b) remove)) (bills s) /\
   income sb = income s /\
   (forall b, In b (bills sb) <-> In b (bills s) /\ name b <> remove) /\
   (Forall (fun b => name b <> remove) (bills s) -> bills sb = bills s)) /\
  (income si = filter (fun i => negb (String.eqb (name i) remove)) (income s) /\
   bills si = bills s /\
   (forall i, In i (income si) <-> In i (income s) /\ name i <> remove) /\
   (Forall (fun i => name i <> remove) (income s) -> income si = income s)).
Proof.
  intros s sb si. subst s sb si.
  rewrite delete_bill_handler_eq, delete_income_handler_eq by assumption.
  simpl. split.
  - split; [reflexivity|]. split; [reflexivity|]. split.
    + intros b. apply In_filter_name.
    + apply filter_name_none.
  - split; [reflexivity|]. split; [reflexivity|]. split.
    + intros i. apply In_filter_name.
    + apply filter_name_none.
Qed.

Lemma sidebar_amount_bill inp :
  flow_type inp = "Bill (expense)"%string -> sidebar_amount inp <= 0.
Proof.
  intros H. unfold sidebar_amount. rewrite H. simpl.
  destruct (0 <? in_amount inp) eqn:E.
  - apply Z.ltb_lt in E. lia.
  - apply Z.ltb_ge in E. lia.
Qed.

Lemma add_handler_bills inp a :
  bills (session (add_handler inp a)) =
  if String.eqb (flow_type inp) "Bill (expense)"
  then (bills (session a) ++
        [mkDecl (in_name inp)
                (if 0 <? in_amount inp then - in_amount inp else in_amount inp)
                (in_frequency inp) (start_date_input inp)
                (end_date_input inp)])%list
  else bills (session a).
Proof.
  unfold add_handler, sidebar_amount.
  destruct (String.eqb (flow_type inp) "Bill (expense)") eqn:E; simpl; auto.
  destruct (0 <? in_amount inp) eqn:L; auto.
  apply Z.ltb_lt in L. rewrite Z.abs_eq by lia. reflexivity.
Qed.

Lemma handle_bills_non_positive a act :
  bills_non_positive a -> bills_non_positive (handle a act).
Proof.
  unfold bills_non_positive. intros Ha.
  destruct act as [inp | remove | remove]; cbn [handle].
  - rewrite add_handler_bills.
    destruct (String.eqb (flow_type inp) "Bill (expense)") eqn:E; auto.
    apply Forall_app. split; auto. constructor; [|constructor]. simpl.
    destruct (0 <? in_amount inp) eqn:L.
    + apply Z.ltb_lt in L. lia.
    + apply Z.ltb_ge in L. lia.
  - destruct (String.eqb remove "None") eqn:E.
    + unfold delete_bill_handler. rewrite E.
      destruct (bills (session a)) eqn:B; cbn [andb negb]; rewrite B; exact Ha.
    + apply String.eqb_neq in E. rewrite delete_bill_handler_eq by assumption.
      cbn [bills]. apply Forall_forall. intros x Hx.
      apply In_filter_name in Hx. rewrite Forall_forall in Ha. apply Ha. tauto.
  - destruct (String.eqb remove "None") eqn:E.
    + unfold delete_income_handler. rewrite E.
      destruct (income (session a)); cbn [andb negb]; exact Ha.
    + apply String.eqb_neq in E. rewrite delete_income_handler_eq by assumption.
      exact Ha.
Qed.

Lemma handle_all_bills_non_positive acts :
  forall a, bills_non_positive a -> bills_non_positive (handle_all a acts).
Proof.
  unfold handle_all. induction acts as [|act rest IH]; intros a Ha; simpl; auto.
  apply IH. apply handle_bills_non_positive. assumption.
Qed.

Lemma expand_item_amounts fuel type item evs :
  expand_item fuel type item = Ok evs ->
  Forall (fun e => ev_amount e = amount item) evs.
Proof.
  unfold expand_item, generate_recurring_events.
  pose proof (loop_iterate_invariant (end_date item) (amount item)
                (frequency item) (fun _ => True) (fun _ _ _ _ => I)
                fuel (mkLoop (start_date item) []) I) as H.
  destruct (loop_iterate _ _ _ fuel _) as [s | df | e]; try discriminate.
  destruct H as (s' & _ & Hret). apply loop_step_returned in Hret.
  destruct Hret as [_ ->]. intros Hev. injection Hev as <-.
  rewrite map_map. apply Forall_forall. intros e He.
  apply in_map_iff in He. destruct He as (d & <- & _). reflexivity.
Qed.

Lemma expand_items_amounts fuel type items :
  forall frames,
    expand_items fuel type items = Ok frames ->
    Forall (fun b => amount b <= 0) items ->
    Forall (Forall (fun e => ev_amount e <= 0)) frames.
Proof.
  induction items as [|item rest IH]; intros frames Hex Hall; simpl in Hex.
  - injection Hex as <-. constructor.
  - destruct (expand_item fuel type item) as [df | e |] eqn:E; try discriminate.
    destruct (expand_items fuel type rest) as [fs | e |]; try discriminate.
    injection Hex as <-. inversion Hall as [|? ? Hitem Hrest]; subst.
    constructor; auto.
    eapply Forall_impl; [|eapply expand_item_amounts; eauto].
    simpl. intros e He. rewrite He. exact Hitem.
Qed.

(** C10.  The [Add] button appends to the bills an entry whose amount is
    the entered amount negated when that is positive, and the entered
    amount otherwise; hence, from a session whose bills are all
    non-positive (such as the empty one of a first start), after any
    sequence of additions and deletions every bill has a non-positive
    amount, and so has every row of the frames the projection tab expands
    from the bills. *)
Theorem bill_amounts_never_positive (a : app) (acts : list action)
  (Ha : bills_non_positive a) :
  (forall inp a0,
      bills (session (add_handler inp a0)) =
      if String.eqb (flow_type inp) "Bill (expense)"
      then (bills (session a0) ++
            [mkDecl (in_name inp)
                    (if 0 <? in_amount inp
                     then - in_amount inp else in_amount inp)
                    (in_frequency inp) (start_date_input inp)
                    (end_date_input inp)])%list
      else bills (session a0)) /\
  Forall (fun b => amount b <= 0) (bills (session (handle_all a acts))) /\
  (forall fuel,
      match expand_items fuel "Bill" (bills (session (handle_all a acts))) with
      | Ok frames => Forall (Forall (fun e => ev_amount e <= 0)) frames
      | _ => True
      end).
Proof.
  pose proof (handle_all_bills_non_positive acts a Ha) as Hall.
  split; [|split].
  - apply add_handler_bills.
  - exact Hall.
  - intros fuel.
    destruct (expand_items fuel "Bill" _) as [frames | e |] eqn:E; auto.
    eapply expand_items_amounts; eauto.
Qed.

(** C8.  With a start balance of 100, the single monthly bill of -50 from
    2025-01-01 to 2025-04-01, no income and the range 2025-01-01 to
    2025-04-01, the projection tab shows the balances 50, 0, -50 and -100
    on the first of January, February, March and April; the least balance
    is -100 and the negative branch is taken. *)
Theorem scenario_monthly_bill :
  bills scenario_session =
    [mkDecl "rent" (-50) "Monthly" (mkDate 2025 1 1) (mkDate 2025 4 1)] /\
  income scenario_session = [] /\
  exists p,
    projection_tab 5 scenario_session 100 (mkDate 2025 1 1) (mkDate 2025 4 1)
    = Ok p /\
    balance_on (timeline p) (mkDate 2025 1 1) = Some 50 /\
    balance_on (timeline p) (mkDate 2025 2 1) = Some 0 /\
    balance_on (timeline p) (mkDate 2025 3 1) = Some (-50) /\
    balance_on (timeline p) (mkDate 2025 4 1) = Some (-100) /\
    min_balance (timeline p) = Some (-100) /\
    negative p = true.
Proof.
  split; [reflexivity|]. split; [reflexivity|].
  eexists. split; [vm_compute; reflexivity|].
  repeat split; vm_compute; reflexivity.
Qed.

End HandlerProperties.

(* ================================================================== *)
(** ** Worked instances *)
(* ================================================================== *)

Section Instances.

(** The prefix-sum law on three days of January 2025 with two events on
    the second day and one after the range. *)
Lemma project_balance_prefix_sum_instance :
  valid_date (mkDate 2025 1 1) /\ valid_date (mkDate 2025 1 3) /\
  date_le (mkDate 2025 1 1) (mkDate 2025 1 3) /\
  let events := [mkEvent (mkDate 2025 1 2) (-50) "Bill" "rent";
                 mkEvent (mkDate 2025 1 2) 20 "Income" "pay";
                 mkEvent (mkDate 2025 2 1) (-50) "Bill" "rent"] in
  let tl := project_balance 100 events (mkDate 2025 1 1) (mkDate 2025 1 3) in
  (forall i p r,
      nth_error tl i = Some p -> nth_error tl (S i) = Some r ->
      r_balance r - r_balance p = net_amount events (r_date r)) /\
  (exists r0,
      nth_error tl 0 = Some r0 /\ r_date r0 = mkDate 2025 1 1 /\
      r_balance r0 - 100 = net_amount events (r_date r0)).
Proof.
  split; [reflexivity|]. split; [reflexivity|]. split; [reflexivity|].
  intros events.
  apply (project_balance_prefix_sum 100 (mkDate 2025 1 1) (mkDate 2025 1 3));
    reflexivity.
Defined.

(** An event of December 2024 leaves the projection of January 2025 as it
    is. *)
Lemma project_balance_ignores_outside_instance :
  valid_date (mkDate 2025 1 1) /\ valid_date (mkDate 2025 1 3) /\
  (date_lt (mkDate 2024 12 31) (mkDate 2025 1 1) \/
   date_lt (mkDate 2025 1 3) (mkDate 2024 12 31)) /\
  project_balance 100
    ([mkEvent (mkDate 2025 1 2) (-50) "Bill" "rent"] ++
     mkEvent (mkDate 2024 12 31) 70 "Income" "pay" :: [])
    (mkDate 2025 1 1) (mkDate 2025 1 3)
  = project_balance 100
      ([mkEvent (mkDate 2025 1 2) (-50) "Bill" "rent"] ++ [])
      (mkDate 2025 1 1) (mkDate 2025 1 3).
Proof.
  split; [reflexivity|]. split; [reflexivity|].
  split; [left; reflexivity|].
  apply (project_balance_ignores_outside 100 (mkDate 2025 1 1) (mkDate 2025 1 3));
    [reflexivity | reflexivity | left; reflexivity].
Defined.

(** The timeline from 2024-02-27 to 2024-03-02 has the five days of that
    range, the leap day among them. *)
Lemma project_balance_one_entry_per_day_instance :
  valid_date (mkDate 2024 2 27) /\ valid_date (mkDate 2024 3 2) /\
  date_le (mkDate 2024 2 27) (mkDate 2024 3 2) /\
  let days :=
    map r_date
        (project_balance 0 [mkEvent (mkDate 2024 2 29) 5 "Income" "gift"]
           (mkDate 2024 2 27) (mkDate 2024 3 2)) in
  (forall d, In d days <->
             valid_date d /\ date_le (mkDate 2024 2 27) d /\
             date_le d (mkDate 2024 3 2)) /\
  StronglySorted date_lt days /\
  NoDup days /\
  (forall i a b,
      nth_error days i = Some a -> nth_error days (S i) = Some b ->
      b = next_day a) /\
  Z.of_nat (List.length days) =
    toordinal (mkDate 2024 3 2) - toordinal (mkDate 2024 2 27) + 1 /\
  (mkDate 2024 2 27 = mkDate 2024 3 2 -> days = [mkDate 2024 2 27]).
Proof.
  split; [reflexivity|]. split; [reflexivity|]. split; [reflexivity|].
  apply (project_balance_one_entry_per_day 0 (mkDate 2024 2 27) (mkDate 2024 3 2));
    reflexivity.
Defined.

(** The yearly expansion from the leap day of 2020 to the end of 2024. *)
Lemma yearly_from_leap_day_instance :
  date_le (mkDate 2024 2 28) (mkDate 2024 12 31) /\
  date_lt (mkDate 2024 12 31) (mkDate 2025 2 28) /\
  generate_recurring_events (6 + 0) (mkDate 2020 2 29) (mkDate 2024 12 31)
    (-50) "Yearly"
  = Returned [(mkDate 2020 2 29, -50); (mkDate 2021 2 28, -50);
              (mkDate 2022 2 28, -50); (mkDate 2023 2 28, -50);
              (mkDate 2024 2 28, -50)].
Proof.
  split; [reflexivity|]. split; [reflexivity|].
  apply (yearly_from_leap_day (mkDate 2024 12 31) (-50) 0); reflexivity.
Defined.

(** The yearly expansion from 2020-02-29 to 2024-12-31 does not return
    the dates that end in the leap day 2024-02-29. *)
Lemma yearly_leap_day_not_restored :
  ~ exists fuel df,
      generate_recurring_events fuel (mkDate 2020 2 29) (mkDate 2024 12 31)
        (-50) "Yearly" = Returned df /\
      map fst df = [mkDate 2020 2 29; mkDate 2021 2 28; mkDate 2022 2 28;
                    mkDate 2023 2 28; mkDate 2024 2 29].
Proof.
  intros (fuel & df & H & Hd).
  do 6 (destruct fuel as [|fuel]; [discriminate H|]).
  vm_compute in H. injection H as <-. discriminate Hd.
Qed.

(** The loop stops for a monthly bill of the first quarter of 2025, and
    keeps running on the start date for a frequency it does not know. *)
Lemma expansion_loop_termination_instance :
  valid_date (mkDate 2025 1 1) /\ valid_date (mkDate 2025 4 1) /\
  recognised "Monthly" /\ ~ recognised "Fortnightly" /\
  date_le (mkDate 2025 1 1) (mkDate 2025 4 1) /\
  (exists fuel,
      terminated
        (generate_recurring_events fuel (mkDate 2025 1 1) (mkDate 2025 4 1)
           (-50) "Monthly")) /\
  (forall fuel, exists s,
      generate_recurring_events fuel (mkDate 2025 1 1) (mkDate 2025 4 1)
        (-50) "Fortnightly" = Running s /\
      current s = mkDate 2025 1 1).
Proof.
  assert (Hm : recognised "Monthly") by (right; right; left; reflexivity).
  assert (Hf : ~ recognised "Fortnightly")
    by (intros [H | [H | [H | H]]]; discriminate H).
  split; [reflexivity|]. split; [reflexivity|].
  split; [exact Hm|]. split; [exact Hf|]. split; [reflexivity|]. split.
  - exact (proj2 (proj1 (expansion_loop_termination
                           (mkDate 2025 1 1) (mkDate 2025 4 1) (-50) "Monthly"
                           eq_refl eq_refl) Hm)).
  - exact (proj2 (expansion_loop_termination
                    (mkDate 2025 1 1) (mkDate 2025 4 1) (-50) "Fortnightly"
                    eq_refl eq_refl) Hf eq_refl).
Defined.

(** The dates of a weekly expansion over January 2025 stay in the month
    and ascend, and a frame is returned; with the two dates swapped the
    frame is empty. *)
Lemma expansion_dates_in_range_increasing_instance :
  valid_date (mkDate 2025 1 1) /\ valid_date (mkDate 2025 1 31) /\
  date_le (mkDate 2025 1 1) (mkDate 2025 1 31) /\ recognised "Weekly" /\
  ("Weekly"%string <> "Monthly"%string \/ day (mkDate 2025 1 1) <= 28) /\
  date_lt (mkDate 2025 1 1) (mkDate 2025 1 31) /\
  ((forall fuel,
       let ds :=
         emitted
           (generate_recurring_events fuel (mkDate 2025 1 1)
              (mkDate 2025 1 31) 20 "Weekly") in
       Forall (fun d => date_le (mkDate 2025 1 1) d /\
                        date_le d (mkDate 2025 1 31)) ds /\
       StronglySorted date_lt ds) /\
   (exists fuel,
       terminated
         (generate_recurring_events fuel (mkDate 2025 1 1)
            (mkDate 2025 1 31) 20 "Weekly")) /\
   (exists fuel df,
       generate_recurring_events fuel (mkDate 2025 1 1) (mkDate 2025 1 31)
         20 "Weekly" = Returned df)) /\
  (forall fuel,
      generate_recurring_events (S fuel) (mkDate 2025 1 31) (mkDate 2025 1 1)
        20 "Weekly" = Returned []).
Proof.
  assert (Hw : recognised "Weekly") by (right; left; reflexivity).
  assert (Hc : "Weekly"%string <> "Monthly"%string \/ day (mkDate 2025 1 1) <= 28)
    by (left; discriminate).
  split; [reflexivity|]. split; [reflexivity|]. split; [reflexivity|].
  split; [exact Hw|]. split; [exact Hc|]. split; [reflexivity|]. split.
  - destruct (proj1 (expansion_dates_in_range_increasing
                       (mkDate 2025 1 1) (mkDate 2025 1 31) 20 "Weekly"
                       eq_refl eq_refl) eq_refl Hw) as (H1 & H2 & H3).
    split; [exact H1|]. split; [exact H2|]. exact (H3 Hc).
  - exact (proj2 (expansion_dates_in_range_increasing
                    (mkDate 2025 1 31) (mkDate 2025 1 1) 20 "Weekly"
                    eq_refl eq_refl) eq_refl).
Defined.

(** Two bills named "rent" and one named "gym": deleting "rent" leaves the
    one named "gym". *)
Lemma delete_removes_all_matching_instance :
  "rent"%string <> "None"%string /\
  let a :=
    mkApp (mkSession
             [mkDecl "rent" (-50) "Monthly" (mkDate 2025 1 1) (mkDate 2025 4 1);
              mkDecl "gym" (-20) "Weekly" (mkDate 2025 1 1) (mkDate 2025 4 1);
              mkDecl "rent" (-60) "Yearly" (mkDate 2025 1 1) (mkDate 2026 1 1)]
             [])
          None in
  bills (session (delete_bill_handler true "rent" a)) =
  [mkDecl "gym" (-20) "Weekly" (mkDate 2025 1 1) (mkDate 2025 4 1)].
Proof.
  split; [discriminate|]. intros a.
  rewrite (proj1 (proj1 (delete_removes_all_matching "rent" a
                           ltac:(discriminate)))).
  reflexivity.
Defined.

(** C9 (as the spec has it) fails: a bill named "None" is still there after
    it was selected and the delete button pressed. *)
Lemma delete_placeholder_name_kept :
  ~ (forall b,
        In b (bills (session
                (delete_bill_handler true "None"
                   (mkApp (mkSession
                             [mkDecl "None" (-50) "Monthly"
                                     (mkDate 2025 1 1) (mkDate 2025 4 1)]
                             [])
                          None)))) ->
        name b <> "None"%string).
Proof.
  intros H.
  apply (H (mkDecl "None" (-50) "Monthly" (mkDate 2025 1 1) (mkDate 2025 4 1))).
  - left. reflexivity.
  - reflexivity.
Qed.

(** From the empty session of a first start, a bill entered as 50 is kept
    as -50 and survives the deletion of another name. *)
Lemma bill_amounts_never_positive_instance :
  bills_non_positive (startup None) /\
  let acts :=
    [PressAdd (mkSidebar "Bill (expense)" "rent" 50 "Monthly"
                         (mkDate 2025 1 1) (mkDate 2025 4 1));
     PressDeleteBill "gym"] in
  Forall (fun b => amount b <= 0)
         (bills (session (handle_all (startup None) acts))) /\
  bills (session (handle_all (startup None) acts)) =
  [mkDecl "rent" (-50) "Monthly" (mkDate 2025 1 1) (mkDate 2025 4 1)].
Proof.
  assert (H0 : bills_non_positive (startup None)) by constructor.
  split; [exact H0|]. intros acts. split.
  - exact (proj1 (proj2 (bill_amounts_never_positive (startup None) acts H0))).
  - reflexivity.
Defined.

End Instances.

(* ================================================================== *)
(** ** More about the expansion loop *)
(* ================================================================== *)

Section ExpansionShapes.

Variables (end_date : date) (amount : Z) (freq : string).






End ExpansionShapes.

Section FixedStride.

Variables (end_date : date) (amount : Z) (freq : string) (k : nat).
Hypothesis Hk : (1 <= k)%nat.
Hypothesis Hadv : forall c, advance freq c = inr (add_days k c).
Hypothesis Hend : valid_date end_date.

Lemma stride_count_next c n :
  valid_date c ->
  stride_count k c end_date = S n ->
  date_le c end_date /\ stride_count k (add_days k c) end_date = n.
Proof.
  intros Hc. unfold stride_count.
  destruct (date_leb c end_date) eqn:E; [|discriminate].
  intros Hn. split; [exact E|].
  pose proof (toordinal_le _ _ Hc Hend E) as Hle.
  pose proof (add_days_valid k c Hc) as Hv.
  pose proof (toordinal_add_days k c Hc) as Ho.
  set (K := Z.of_nat k) in *. assert (HK : 0 < K) by (subst K; lia).
  set (a := toordinal end_date - toordinal c) in *.
  destruct (date_leb (add_days k c) end_date) eqn:E'.
  - pose proof (toordinal_le _ _ Hv Hend E') as Hle'.
    replace (toordinal end_date - toordinal (add_days k c)) with (a + (-1) * K)
      by (subst a; lia).
    rewrite Z.div_add by lia.
    assert (0 <= a / K) by (apply Z.div_pos; lia). lia.
  - apply date_leb_false in E'.
    pose proof (toordinal_lt _ _ Hend Hv E') as Hlt.
    rewrite Z.div_small in Hn by (subst a; lia). simpl in Hn. lia.
Qed.

Lemma stride_count_zero c :
  valid_date c -> stride_count k c end_date = O -> date_lt end_date c.
Proof.
  intros Hc. unfold stride_count.
  destruct (date_leb c end_date) eqn:E.
  - pose proof (toordinal_le _ _ Hc Hend E) as Hle. intros Hn.
    assert (0 <= (toordinal end_date - toordinal c) / Z.of_nat k)
      by (apply Z.div_pos; lia).
    lia.
  - intros _. apply date_leb_false. exact E.
Qed.

Lemma stride_loop n :
  forall fuel s,
    valid_date (current s) ->
    stride_count k (current s) end_date = n ->
    (n < fuel)%nat ->
    loop_iterate end_date amount freq fuel s =
    Returned (map (fun d => (d, amount))
                  (dates s ++ stride_dates k n (current s))).
Proof.
  induction n as [|n IH]; intros fuel s Hv Hn Hfuel;
    (destruct fuel as [|fuel]; [lia|]).
  - rewrite loop_iterate_exit by (apply stride_count_zero; assumption).
    simpl. rewrite app_nil_r. reflexivity.
  - destruct (stride_count_next _ _ Hv Hn) as [Hle Hn'].
    rewrite (loop_iterate_pass _ _ _ _ _ _ Hle (Hadv _)).
    rewrite IH; simpl; auto using add_days_valid; [|lia].
    rewrite <- app_assoc. reflexivity.
Qed.

End FixedStride.

Section StrideFacts.

Lemma add_days_add a b d : add_days (a + b) d = add_days b (add_days a d).
Proof.
  revert d. induction a as [|a IH]; intros d; simpl; auto.
Qed.

Lemma stride_dates_daily n d : stride_dates 1 n d = date_range_from n d.
Proof.
  revert d. induction n as [|n IH]; intros d; simpl; auto.
  rewrite IH. reflexivity.
Qed.

Lemma stride_dates_nth k n d :
  stride_dates k n d = map (fun i => add_days (k * i) d) (seq 0 n).
Proof.
  revert d. induction n as [|n IH]; intros d; simpl.
  - reflexivity.
  - rewrite Nat.mul_0_r. simpl. f_equal.
    rewrite IH, <- seq_shift, map_map. apply map_ext. intros i.
    replace (k * S i)%nat with (k + k * i)%nat by lia.
    apply eq_sym, add_days_add.
Qed.

Lemma stride_count_daily start_date end_date :
  valid_date start_date -> valid_date end_date ->
  date_range_from (stride_count 1 start_date end_date) start_date =
  date_range start_date end_date.
Proof.
  intros Hs He. unfold stride_count, date_range.
  destruct (date_leb start_date end_date) eqn:E; [|reflexivity].
  rewrite Z.div_1_r. reflexivity.
Qed.

End StrideFacts.

Section StrideProperties.

Variables (start_date end_date : date) (amount : Z).
Hypothesis Hstart : valid_date start_date.
Hypothesis Hend : valid_date end_date.

(** X2.  A daily expansion returns one row for every calendar day from
    the start date to the end date, in order, each with the amount; it is
    empty when the end date is before the start date. *)
Theorem daily_expansion_is_day_grid (fuel : nat)
  (Hfuel : (List.length (date_range start_date end_date) < fuel)%nat) :
  generate_recurring_events fuel start_date end_date amount "Daily" =
  Returned (map (fun d => (d, amount)) (date_range start_date end_date)).
Proof.
  unfold generate_recurring_events.
  rewrite <- stride_count_daily in * by assumption.
  rewrite date_range_from_length in Hfuel.
  rewrite (stride_loop end_date amount "Daily" 1 (le_n 1) advance_daily Hend
             (stride_count 1 start_date end_date)); simpl; auto.
  rewrite stride_dates_daily. reflexivity.
Qed.

(** X3.  A weekly expansion returns the dates 0, 7, 14, ... days after the
    start date, as many as fit up to the end date: the whole number of
    weeks between the two dates plus one, none when the end date is before
    the start date. *)
Theorem weekly_expansion_every_seven_days (fuel : nat)
  (Hfuel : (stride_count 7 start_date end_date < fuel)%nat) :
  generate_recurring_events fuel start_date end_date amount "Weekly" =
  Returned
    (map (fun i => (add_days (7 * i) start_date, amount))
         (seq 0 (stride_count 7 start_date end_date))).
Proof.
  unfold generate_recurring_events.
  rewrite (stride_loop end_date amount "Weekly" 7 ltac:(lia) advance_weekly Hend
             (stride_count 7 start_date end_date)); auto.
  cbn [dates List.app]. rewrite stride_dates_nth, map_map. reflexivity.
Qed.

End StrideProperties.

Section CalendarSteps.

Lemma monthly_date_zero d : valid_date d -> monthly_date d 0 = d.
Proof.
  intros H. apply valid_date_spec in H. destruct H as (_ & Hm & _).
  unfold monthly_date. destruct d as [y m dd]. simpl in *.
  rewrite Z.add_0_r. f_equal; Z.div_mod_to_equations; lia.
Qed.

Lemma advance_monthly_date d n c :
  advance "Monthly" (monthly_date d n) = inr c -> c = monthly_date d (S n).
Proof.
  rewrite advance_monthly. unfold monthly_date. cbn [year month day].
  set (M := year d * 12 + (month d - 1) + Z.of_nat n).
  replace (year d * 12 + (month d - 1) + Z.of_nat (S n)) with (M + 1)
    by (subst M; lia).
  destruct (M mod 12 + 1 =? 12) eqn:E; intros H; apply replace_inr in H;
    destruct H as [_ ->]; cbn [year month day].
  - apply Z.eqb_eq in E. f_equal; Z.div_mod_to_equations; lia.
  - apply Z.eqb_neq in E. f_equal; Z.div_mod_to_equations; lia.
Qed.

Lemma is_leap_next y : is_leap y = true -> is_leap (y + 1) = false.
Proof.
  unfold is_leap. intros H. apply andb_true_iff in H. destruct H as [H _].
  apply Z.eqb_eq in H. apply andb_false_iff. left. apply Z.eqb_neq.
  Z.div_mod_to_equations. lia.
Qed.

Lemma valid_other_year c y :
  valid_date c -> 1 <= y -> ~ (month c = 2 /\ day c = 29) ->
  valid_date (mkDate y (month c) (day c)).
Proof.
  rewrite !valid_date_spec. intros (Hy & Hm & Hd) Hy' Hnot.
  cbn [year month day]. split; [lia|]. split; [lia|]. split; [lia|].
  unfold days_in_month in *.
  destruct (month c =? 2) eqn:E.
  - apply Z.eqb_eq in E. rewrite E in *. simpl in *.
    destruct (is_leap (year c)); destruct (is_leap y); simpl in *; lia.
  - simpl in *. lia.
Qed.

Lemma leap_day_next_year c :
  valid_date c -> month c = 2 -> day c = 29 ->
  valid_dateb (mkDate (year c + 1) (month c) (day c)) = false.
Proof.
  rewrite valid_date_spec. intros (Hy & Hm & Hd) Hmonth Hday.
  rewrite Hmonth, Hday in *. unfold days_in_month in Hd. simpl in Hd.
  destruct (is_leap (year c)) eqn:L; [|simpl in Hd; lia].
  unfold valid_dateb, days_in_month. cbn [year month day].
  rewrite (is_leap_next _ L). simpl.
  rewrite !andb_false_r. reflexivity.
Qed.

Lemma yearly_date_valid d n :
  valid_date d -> valid_date (yearly_date d n).
Proof.
  intros H. destruct n as [|n]; [exact H|]. unfold yearly_date.
  pose proof H as H'. apply valid_date_spec in H'. destruct H' as (Hy & Hm & Hd).
  destruct ((month d =? 2) && (day d =? 29)) eqn:E.
  - apply andb_true_iff in E. destruct E as [E1 E2].
    apply Z.eqb_eq in E1. apply valid_date_spec. cbn [year month day].
    rewrite E1. pose proof (days_in_month_bounds (year d + Z.of_nat (S n)) 2).
    lia.
  - apply (valid_other_year d (year d + Z.of_nat (S n))); auto; [lia|].
    intros [E1 E2]. rewrite E1, E2 in E. discriminate.
Qed.

Lemma advance_yearly_date d n c :
  valid_date d ->
  advance "Yearly" (yearly_date d n) = inr c -> c = yearly_date d (S n).
Proof.
  intros Hd. rewrite advance_yearly.
  pose proof Hd as Hd'. apply valid_date_spec in Hd'.
  destruct Hd' as (Hy & Hm & Hday).
  destruct n as [|n].
  - cbn [yearly_date]. unfold replace at 1.
    destruct ((month d =? 2) && (day d =? 29)) eqn:E.
    + apply andb_true_iff in E. destruct E as [E1 E2].
      apply Z.eqb_eq in E1, E2.
      rewrite (leap_day_next_year d Hd E1 E2).
      intros H. apply replace_inr in H. destruct H as [_ ->].
      rewrite E1. reflexivity.
    + assert (Hv : valid_dateb (mkDate (year d + 1) (month d) (day d)) = true).
      { apply (valid_other_year d (year d + 1)); auto; [lia|].
        intros [E1 E2]. rewrite E1, E2 in E. discriminate. }
      rewrite Hv. intros H. injection H as <-. reflexivity.
  - pose proof (yearly_date_valid d (S n) Hd) as Hv.
    remember (yearly_date d (S n)) as c0 eqn:Hc0.
    assert (Hnot : ~ (month c0 = 2 /\ day c0 = 29)).
    { subst c0. cbn [yearly_date month day].
      destruct ((month d =? 2) && (day d =? 29)) eqn:E; [lia|].
      intros [E1 E2]. rewrite E1, E2 in E. discriminate. }
    unfold replace at 1.
    assert (Hv' : valid_dateb (mkDate (year c0 + 1) (month c0) (day c0)) = true).
    { apply (valid_other_year c0 (year c0 + 1)); auto.
      apply valid_date_spec in Hv. lia. }
    rewrite Hv'. intros H. injection H as <-.
    subst c0. cbn [yearly_date year month day]. f_equal. lia.
Qed.

Lemma closed_form_invariant end_date amount freq (f : nat -> date)
  (start_date : date) :
  f O = start_date ->
  (forall n c, advance freq (f n) = inr c -> c = f (S n)) ->
  forall fuel,
    let ds :=
      emitted
        (generate_recurring_events fuel start_date end_date amount freq) in
    ds = map f (seq 0 (List.length ds)).
Proof.
  intros H0 Hstep fuel. unfold generate_recurring_events.
  pose proof (loop_iterate_invariant end_date amount freq
                (fun s => exists n, current s = f n /\
                                    dates s = map f (seq 0 n))) as Hinv.
  assert (Hpres : forall s s',
             (exists n, current s = f n /\ dates s = map f (seq 0 n)) ->
             loop_step end_date amount freq s = Running s' ->
             exists n, current s' = f n /\ dates s' = map f (seq 0 n)).
  { intros s s' (n & Hc & Hd) Hrun.
    apply loop_step_running in Hrun. destruct Hrun as (_ & Hadv & Hdates).
    exists (S n). rewrite Hc in Hadv. split.
    - apply Hstep. exact Hadv.
    - rewrite Hdates, Hd, Hc, seq_S, map_app. reflexivity. }
  specialize (Hinv Hpres fuel (mkLoop start_date [])
                (ex_intro _ O (conj (eq_sym H0) eq_refl))).
  assert (Hlen : forall n, map f (seq 0 n) =
                           map f (seq 0 (List.length (map f (seq 0 n))))).
  { intros n. rewrite length_map, length_seq. reflexivity. }
  destruct (loop_iterate end_date amount freq fuel (mkLoop start_date []))
    as [s | df | e]; cbn [emitted].
  - destruct Hinv as (n & _ & ->). apply Hlen.
  - destruct Hinv as (s' & (n & _ & Hd) & Hret).
    apply loop_step_returned in Hret. destruct Hret as [_ ->].
    rewrite map_map. cbn [fst]. rewrite map_id, Hd. apply Hlen.
  - reflexivity.
Qed.

End CalendarSteps.

Section CalendarShapeProperties.

Variables (start_date end_date : date) (amount : Z).
Hypothesis Hstart : valid_date start_date.

(** X4.  In a monthly expansion the i-th date appended, counting from 0,
    is the start date moved i months on with the day of the month
    unchanged, after any number of passes and in the frame returned. *)
Theorem monthly_expansion_same_day_each_month (fuel : nat) :
  let ds :=
    emitted
      (generate_recurring_events fuel start_date end_date amount "Monthly") in
  ds = map (monthly_date start_date) (seq 0 (List.length ds)).
Proof.
  apply closed_form_invariant.
  - apply monthly_date_zero. exact Hstart.
  - intros n c. apply advance_monthly_date.
Qed.

(** X5.  In a yearly expansion the i-th date appended is the start date
    itself for i = 0 and afterwards the same month and day i years later,
    except that from a 29th of February every later date is a 28th of
    February, leap year or not. *)
Theorem yearly_expansion_same_day_each_year (fuel : nat) :
  let ds :=
    emitted
      (generate_recurring_events fuel start_date end_date amount "Yearly") in
  ds = map (yearly_date start_date) (seq 0 (List.length ds)).
Proof.
  apply closed_form_invariant.
  - reflexivity.
  - intros n c. apply advance_yearly_date. exact Hstart.
Qed.

End CalendarShapeProperties.

(* ================================================================== *)
(** ** More about the projection *)
(* ================================================================== *)

Section ProjectionShapes.

Lemma date_leb_ord a b :
  valid_date a -> valid_date b ->
  date_leb a b = (toordinal a <=? toordinal b).
Proof.
  intros Ha Hb. destruct (date_leb a b) eqn:E; symmetry.
  - apply Z.leb_le. apply toordinal_le; assumption.
  - apply Z.leb_gt. apply toordinal_lt; auto. apply date_leb_false. exact E.
Qed.

Lemma date_eqb_ord a b :
  valid_date a -> valid_date b ->
  date_eqb a b = (toordinal a =? toordinal b).
Proof.
  intros Ha Hb. destruct (date_eqb a b) eqn:E; symmetry.
  - apply date_eqb_eq in E. subst. apply Z.eqb_refl.
  - apply Z.eqb_neq. intros H. apply date_eqb_neq in E. apply E.
    apply toordinal_inj; assumption.
Qed.

Lemma total_between_same events d :
  total_between events d d = net_amount events d.
Proof.
  induction events as [|e rest IH]; simpl; auto. rewrite IH. f_equal.
  destruct (date_eqb (ev_date e) d) eqn:E.
  - apply date_eqb_eq in E. rewrite E.
    pose proof (date_le_refl d) as R. unfold date_le in R. rewrite R.
    reflexivity.
  - destruct (date_leb d (ev_date e)) eqn:L1; simpl; auto.
    destruct (date_leb (ev_date e) d) eqn:L2; simpl; auto.
    apply date_le_spec in L1. apply date_le_spec in L2.
    apply date_eqb_neq in E.
    destruct L1 as [L1 | L1]; [|congruence].
    destruct L2 as [L2 | L2]; [|congruence].
    exfalso. apply (date_lt_irrefl d). eapply date_lt_trans; eauto.
Qed.

Lemma total_between_next events lo hi :
  Forall (fun e => valid_date (ev_date e)) events ->
  valid_date lo -> valid_date hi -> date_le lo (next_day hi) ->
  total_between events lo (next_day hi) =
  total_between events lo hi + net_amount events (next_day hi).
Proof.
  intros Hall Hlo Hhi Hle.
  pose proof (next_day_valid hi Hhi) as Hn.
  pose proof (toordinal_next_day hi Hhi) as Ho.
  pose proof (toordinal_le _ _ Hlo Hn Hle) as Hord.
  induction Hall as [|e rest He Hrest IH]; simpl; [reflexivity|].
  rewrite IH.
  rewrite !(date_leb_ord lo), !(date_leb_ord (ev_date e)),
    (date_eqb_ord (ev_date e)) by assumption.
  destruct (toordinal lo <=? toordinal (ev_date e)) eqn:A;
    destruct (toordinal (ev_date e) <=? toordinal (next_day hi)) eqn:B;
    destruct (toordinal (ev_date e) <=? toordinal hi) eqn:C;
    destruct (toordinal (ev_date e) =? toordinal (next_day hi)) eqn:D;
    rewrite ?Z.leb_le, ?Z.leb_gt, ?Z.eqb_eq, ?Z.eqb_neq in *;
    simpl; lia.
Qed.

Lemma timeline_rows_closed_form events start_balance start_date n :
  Forall (fun e => valid_date (ev_date e)) events ->
  valid_date start_date ->
  forall d acc,
    valid_date d -> date_le start_date d ->
    acc + net_amount events d =
      start_balance + total_between events start_date d ->
    Forall (fun r => r_balance r =
                     start_balance + total_between events start_date (r_date r))
           (timeline_rows events acc (date_range_from n d)).
Proof.
  intros Hall Hs. induction n as [|n IH]; intros d acc Hd Hle Hacc; simpl.
  - constructor.
  - constructor; [simpl; exact Hacc|].
    apply IH.
    + apply next_day_valid. assumption.
    + apply date_lt_le. eapply date_le_lt_trans; eauto. apply next_day_lt. assumption.
    + rewrite total_between_next; auto; [lia|].
      apply date_lt_le. eapply date_le_lt_trans; eauto. apply next_day_lt. assumption.
Qed.

Lemma net_amount_perm events events' d :
  Permutation events events' -> net_amount events d = net_amount events' d.
Proof.
  induction 1; simpl; lia.
Qed.

Lemma timeline_rows_shift events k acc days :
  timeline_rows events (acc + k) days =
  map (fun r => mkRow (r_date r) (r_balance r + k) (r_amount r))
      (timeline_rows events acc days).
Proof.
  revert acc. induction days as [|d rest IH]; intros acc; simpl; auto.
  replace (acc + k + net_amount events d) with (acc + net_amount events d + k)
    by lia.
  rewrite IH. reflexivity.
Qed.

Lemma timeline_rows_flat events acc days :
  Forall (fun d => net_amount events d = 0) days ->
  Forall (fun r => r_balance r = acc /\ r_amount r = 0)
         (timeline_rows events acc days).
Proof.
  intros H. revert acc. induction H as [|d rest Hd Hrest IH]; intros acc; simpl.
  - constructor.
  - rewrite Hd, Z.add_0_r. constructor; [simpl; auto|]. apply IH.
Qed.

Lemma timeline_rows_at_least events acc days :
  (forall d, 0 <= net_amount events d) ->
  Forall (fun r => acc <= r_balance r) (timeline_rows events acc days).
Proof.
  intros H. revert acc. induction days as [|d rest IH]; intros acc; simpl.
  - constructor.
  - pose proof (H d). constructor; [simpl; lia|].
    eapply Forall_impl; [|apply IH]. simpl. intros r Hr. lia.
Qed.

Lemma timeline_rows_at_most events acc days :
  (forall d, net_amount events d <= 0) ->
  Forall (fun r => r_balance r <= acc) (timeline_rows events acc days).
Proof.
  intros H. revert acc. induction days as [|d rest IH]; intros acc; simpl.
  - constructor.
  - pose proof (H d). constructor; [simpl; lia|].
    eapply Forall_impl; [|apply IH]. simpl. intros r Hr. lia.
Qed.

Lemma net_amount_sign_nonneg events d :
  Forall (fun e => 0 <= ev_amount e) events -> 0 <= net_amount events d.
Proof.
  induction 1 as [|e rest He Hrest IH]; simpl; [lia|].
  destruct (date_eqb (ev_date e) d); lia.
Qed.

Lemma net_amount_sign_nonpos events d :
  Forall (fun e => ev_amount e <= 0) events -> net_amount events d <= 0.
Proof.
  induction 1 as [|e rest He Hrest IH]; simpl; [lia|].
  destruct (date_eqb (ev_date e) d); lia.
Qed.

Lemma net_amount_absent events d :
  Forall (fun e => ev_date e <> d) events -> net_amount events d = 0.
Proof.
  induction 1 as [|e rest He Hrest IH]; simpl; [reflexivity|].
  apply date_eqb_neq in He. rewrite He, IH. reflexivity.
Qed.

Lemma fold_min_spec bs :
  forall b,
    (fold_left Z.min bs b = b \/ In (fold_left Z.min bs b) bs) /\
    fold_left Z.min bs b <= b /\
    Forall (fun x => fold_left Z.min bs b <= x) bs.
Proof.
  induction bs as [|x rest IH]; intros b; simpl.
  - split; [auto|]. split; [lia | constructor].
  - destruct (IH (Z.min b x)) as (Hin & Hle & Hall).
    split; [|split].
    + destruct Hin as [Hin | Hin]; [|auto]. rewrite Hin.
      destruct (Z.min_spec b x) as [[_ ->] | [_ ->]]; auto.
    + lia.
    + constructor; [lia | exact Hall].
Qed.

Lemma min_balance_spec tl m :
  min_balance tl = Some m ->
  In m (map r_balance tl) /\ Forall (fun r => m <= r_balance r) tl.
Proof.
  unfold min_balance. destruct tl as [|r rest]; simpl; [discriminate|].
  intros H. injection H as <-.
  destruct (fold_min_spec (map r_balance rest) (r_balance r)) as (Hin & Hle & Hall).
  split.
  - destruct Hin as [-> | Hin]; auto.
  - constructor; [exact Hle|].
    rewrite Forall_map in Hall. exact Hall.
Qed.

Lemma goes_negative_spec tl :
  goes_negative tl = true <-> exists r, In r tl /\ r_balance r < 0.
Proof.
  unfold goes_negative. destruct (min_balance tl) as [m|] eqn:E.
  - destruct (min_balance_spec tl m E) as [Hin Hall].
    rewrite Z.ltb_lt. split.
    + intros Hm. apply in_map_iff in Hin. destruct Hin as (r & <- & Hr). eauto.
    + intros (r & Hr & Hneg). rewrite Forall_forall in Hall.
      pose proof (Hall r Hr). lia.
  - split; [discriminate|]. intros (r & Hr & _).
    unfold min_balance in E. destruct tl; [contradiction | discriminate].
Qed.

End ProjectionShapes.

Section ProjectionMore.

Variables (start_balance : Z) (start_date end_date : date).
Hypothesis Hstart : valid_date start_date.
Hypothesis Hend : valid_date end_date.

(** X7.  With amounts that are added without rounding, the balance shown
    for a day is the start balance plus the amounts of all events dated
    from the start date up to that day. *)
Theorem balance_is_start_plus_events_so_far (events : list event)
  (Hevents : Forall (fun e => valid_date (ev_date e)) events) :
  Forall (fun r => r_balance r =
                   start_balance +
                   total_between events start_date (r_date r))
         (project_balance start_balance events start_date end_date).
Proof.
  rewrite project_balance_rows. unfold date_range.
  destruct (date_leb start_date end_date); [|constructor].
  apply timeline_rows_closed_form; auto using date_le_refl.
  rewrite total_between_same. reflexivity.
Qed.

(** X10.  When no event is dated within the range, in particular when
    there are no events, every day's balance is the start balance and
    every day's amount is zero. *)
Theorem no_event_in_range_keeps_balance (events : list event)
  (Hout : Forall (fun e => date_lt (ev_date e) start_date \/
                           date_lt end_date (ev_date e)) events) :
  Forall (fun r => r_balance r = start_balance /\ r_amount r = 0)
         (project_balance start_balance events start_date end_date).
Proof.
  rewrite project_balance_rows. apply timeline_rows_flat.
  apply Forall_forall. intros d Hd.
  apply In_date_range in Hd; auto. destruct Hd as (_ & H1 & H2).
  apply net_amount_absent. eapply Forall_impl; [|exact Hout].
  simpl. intros e He E. subst d. destruct He as [He | He].
  - apply (date_lt_irrefl start_date). eapply date_le_lt_trans; eauto.
  - apply (date_lt_irrefl end_date). eapply date_lt_le_trans; eauto.
Qed.

End ProjectionMore.

Section ProjectionAlgebra.

Variables (start_balance : Z) (start_date end_date : date).

(** X8.  The projection does not depend on the order of the rows of the
    events frame. *)
Theorem project_balance_order_independent (events events' : list event)
  (Hperm : Permutation events events') :
  project_balance start_balance events start_date end_date =
  project_balance start_balance events' start_date end_date.
Proof.
  rewrite !project_balance_rows. apply timeline_rows_ext.
  apply Forall_forall. intros d _. apply net_amount_perm. exact Hperm.
Qed.

(** X9.  With amounts that are added without rounding, raising the start
    balance by [k] raises the balance of every day by [k] and changes
    nothing else. *)
Theorem project_balance_shift (events : list event) (k : Z) :
  project_balance (start_balance + k) events start_date end_date =
  map (fun r => mkRow (r_date r) (r_balance r + k) (r_amount r))
      (project_balance start_balance events start_date end_date).
Proof.
  rewrite !project_balance_rows. apply timeline_rows_shift.
Qed.

(** X12.  With events that are all non-negative no balance is below the
    start balance, so a non-negative start balance never takes the
    negative branch; with events that are all non-positive no balance is
    above the start balance. *)
Theorem balance_bounded_by_sign_of_events (events : list event) :
  (Forall (fun e => 0 <= ev_amount e) events ->
   Forall (fun r => start_balance <= r_balance r)
          (project_balance start_balance events start_date end_date) /\
   (0 <= start_balance ->
    goes_negative
      (project_balance start_balance events start_date end_date) = false)) /\
  (Forall (fun e => ev_amount e <= 0) events ->
   Forall (fun r => r_balance r <= start_balance)
          (project_balance start_balance events start_date end_date)).
Proof.
  rewrite project_balance_rows. split.
  - intros Hpos.
    assert (Hall : Forall (fun r => start_balance <= r_balance r)
                     (timeline_rows events start_balance
                        (date_range start_date end_date))).
    { apply timeline_rows_at_least. intros d.
      apply net_amount_sign_nonneg. exact Hpos. }
    split; [exact Hall|]. intros Hsb.
    destruct (goes_negative _) eqn:G; [|reflexivity].
    apply goes_negative_spec in G. destruct G as (r & Hr & Hneg).
    rewrite Forall_forall in Hall. pose proof (Hall r Hr). lia.
  - intros Hneg. apply timeline_rows_at_most. intros d.
    apply net_amount_sign_nonpos. exact Hneg.
Qed.

(** X21.  With the end date before the start date the timeline is empty
    and the negative branch is not taken. *)
Theorem project_balance_empty_range (events : list event)
  (Hrange : date_lt end_date start_date) :
  project_balance start_balance events start_date end_date = [] /\
  min_balance (project_balance start_balance events start_date end_date)
    = None /\
  goes_negative (project_balance start_balance events start_date end_date)
    = false.
Proof.
  rewrite project_balance_rows. unfold date_range.
  apply date_leb_false in Hrange. rewrite Hrange. auto.
Qed.

End ProjectionAlgebra.

Section MinimumProperties.

(** X11.  The least balance is one of the balances of the timeline and is
    below none of them; there is none exactly when the timeline is empty;
    and the negative branch is taken exactly when some day's balance is
    below zero. *)
Theorem negative_flag_iff_some_day_below_zero (tl : list row) :
  (forall m, min_balance tl = Some m ->
             In m (map r_balance tl) /\
             Forall (fun r => m <= r_balance r) tl) /\
  (min_balance tl = None <-> tl = []) /\
  (goes_negative tl = true <-> exists r, In r tl /\ r_balance r < 0).
Proof.
  split; [|split].
  - intros m. apply min_balance_spec.
  - unfold min_balance. destruct tl; simpl; split; intros H;
      try reflexivity; discriminate.
  - apply goes_negative_spec.
Qed.

End MinimumProperties.

(* ================================================================== *)
(** ** More about the projection tab *)
(* ================================================================== *)

Section TabFacts.

Lemma filter_rows_above d (tl : list row) :
  Forall (fun x => date_lt d x) (map r_date tl) ->
  filter (fun r => date_eqb (r_date r) d) tl = [].
Proof.
  induction tl as [|r rest IH]; simpl; auto.
  intros H. inversion H as [|? ? Hr Hrest]; subst.
  destruct (date_eqb (r_date r) d) eqn:E; auto.
  apply date_eqb_eq in E. rewrite E in Hr.
  exfalso. eapply date_lt_irrefl; eauto.
Qed.

Lemma filter_rows_find d (tl : list row) :
  StronglySorted date_lt (map r_date tl) ->
  filter (fun r => date_eqb (r_date r) d) tl =
  match find (fun r => date_eqb (r_date r) d) tl with
  | Some r => [r]
  | None => []
  end.
Proof.
  induction tl as [|r rest IH]; simpl; auto.
  intros H. inversion H as [|? ? Hs Hr]; subst.
  destruct (date_eqb (r_date r) d) eqn:E; auto.
  apply date_eqb_eq in E. rewrite E in Hr.
  rewrite filter_rows_above by assumption. reflexivity.
Qed.

Lemma annotate_events_sorted events tl :
  StronglySorted date_lt (map r_date tl) ->
  annotate_events events tl =
  map (fun e => (e, balance_on tl (ev_date e))) events.
Proof.
  intros Hs. unfold annotate_events, balance_on.
  rewrite (flat_map_ext _
             (fun e => [(e, option_map r_balance
                               (find (fun r => date_eqb (r_date r) (ev_date e))
                                     tl))])).
  - induction events as [|e rest IH]; simpl; [reflexivity | rewrite IH; reflexivity].
  - intros e. rewrite filter_rows_find by assumption.
    destruct (find _ tl); reflexivity.
Qed.

Lemma balance_on_some tl d :
  balance_on tl d <> None <-> In d (map r_date tl).
Proof.
  unfold balance_on. split.
  - destruct (find (fun r => date_eqb (r_date r) d) tl) as [r|] eqn:E;
      [|intros H; exfalso; apply H; reflexivity].
    intros _. apply find_some in E. destruct E as [Hin Heq].
    apply date_eqb_eq in Heq. subst d. apply in_map. exact Hin.
  - intros Hin. apply in_map_iff in Hin. destruct Hin as (r & Hr & Hin).
    destruct (find (fun r => date_eqb (r_date r) d) tl) as [r'|] eqn:E;
      [discriminate|].
    exfalso. pose proof (find_none _ _ E r Hin) as Hn. simpl in Hn.
    rewrite Hr, date_eqb_refl in Hn. discriminate.
Qed.





Lemma expand_items_all_returned fuel type items frames :
  expand_items fuel type items = Ok frames ->
  Forall (fun item =>
            exists df,
              generate_recurring_events fuel (start_date item) (end_date item)
                (amount item) (frequency item) = Returned df) items.
Proof.
  revert frames. induction items as [|item rest IH]; intros frames H; simpl in H.
  - constructor.
  - destruct (expand_item fuel type item) as [df | e |] eqn:E; try discriminate.
    destruct (expand_items fuel type rest) as [fs | e |] eqn:R; try discriminate.
    constructor; [|eapply IH; eauto].
    unfold expand_item in E.
    destruct (generate_recurring_events fuel _ _ _ _) as [s | df' | e];
      try discriminate. eauto.
Qed.

Lemma projection_tab_all_returned fuel s start_balance range_start range_end p :
  projection_tab fuel s start_balance range_start range_end = Ok p ->
  Forall (fun item =>
            exists df,
              generate_recurring_events fuel (start_date item)
                (end_date item) (amount item) (frequency item)
              = Returned df) (bills s ++ income s).
Proof.
  unfold projection_tab. intros H.
  destruct (expand_items fuel "Bill" (bills s)) as [bf | e |] eqn:B;
    try discriminate.
  destruct (expand_items fuel "Income" (income s)) as [inf | e |] eqn:I;
    try discriminate.
  apply Forall_app. split; eapply expand_items_all_returned; eauto.
Qed.

End TabFacts.

Section TabProperties.

Variables (start_balance : Z) (range_start range_end : date).
Hypothesis Hstart : valid_date range_start.
Hypothesis Hend : valid_date range_end.

(** X13.  Joining the events with the timeline keeps every event exactly
    once and in order; an event gets the balance of its own day, and it
    gets one exactly when its date is a day of the range. *)
Theorem events_annotated_with_day_balance (events : list event) :
  let tl := project_balance start_balance events range_start range_end in
  annotate_events events tl =
    map (fun e => (e, balance_on tl (ev_date e))) events /\
  forall d, balance_on tl d <> None <->
            valid_date d /\ date_le range_start d /\ date_le d range_end.
Proof.
  intros tl. subst tl. split.
  - apply annotate_events_sorted.
    rewrite project_balance_rows, timeline_rows_dates.
    apply date_range_sorted. exact Hstart.
  - intros d. rewrite balance_on_some.
    rewrite project_balance_rows, timeline_rows_dates.
    apply In_date_range; assumption.
Qed.

(** X15.  With no declarations at all the tab returns for any fuel, every
    day's balance is the start balance, and the negative branch is taken
    exactly when the start balance is below zero. *)
Theorem projection_without_declarations (fuel : nat)
  (Hrange : date_le range_start range_end) :
  exists p,
    projection_tab fuel (mkSession [] []) start_balance range_start range_end
    = Ok p /\
    Forall (fun r => r_balance r = start_balance) (timeline p) /\
    negative p = (start_balance <? 0).
Proof.
  eexists. split; [reflexivity|]. cbn [timeline negative List.concat List.app].
  rewrite project_balance_rows.
  assert (Hflat : Forall (fun r => r_balance r = start_balance /\ r_amount r = 0)
                    (timeline_rows [] start_balance
                       (date_range range_start range_end))).
  { apply timeline_rows_flat. apply Forall_forall. intros d _. reflexivity. }
  split.
  - eapply Forall_impl; [|exact Hflat]. simpl. tauto.
  - destruct (date_range_head _ _ Hstart Hend Hrange) as [rest Hrest].
    rewrite Hrest in *.
    destruct (start_balance <? 0) eqn:S.
    + apply goes_negative_spec. apply Z.ltb_lt in S. simpl.
      eexists. split; [left; reflexivity|]. simpl. lia.
    + destruct (goes_negative _) eqn:G; [|reflexivity].
      apply goes_negative_spec in G. destruct G as (r & Hr & Hneg).
      rewrite Forall_forall in Hflat. destruct (Hflat r Hr) as [Hb _].
      apply Z.ltb_ge in S. lia.
Qed.

End TabProperties.

Section TabTotality.

Variables (start_balance : Z) (range_start range_end : date).


(** X17.  A stored declaration with a frequency outside the four and a
    start date not after its end date keeps the projection tab from ever
    returning: no amount of fuel gives a timeline. *)
Theorem projection_never_returns_on_unknown_frequency (s : session_state)
  (item : declaration) (fuel : nat) (p : projection)
  (Hin : In item (bills s ++ income s))
  (Hfreq : ~ recognised (frequency item))
  (Hdates : date_le (start_date item) (end_date item)) :
  projection_tab fuel s start_balance range_start range_end <> Ok p.
Proof.
  intros H. apply projection_tab_all_returned in H.
  rewrite Forall_forall in H. destruct (H item Hin) as [df Hdf].
  unfold generate_recurring_events in Hdf.
  rewrite loop_iterate_stuck in Hdf by (simpl; auto). discriminate.
Qed.

(** X18.  A stored Monthly declaration whose start day does not exist in
    the following month, with a start date not after its end date, keeps
    the projection tab from returning a timeline. *)
Theorem projection_fails_on_monthly_overflow (s : session_state)
  (item : declaration) (fuel : nat) (p : projection)
  (Hin : In item (bills s ++ income s))
  (Hfreq : frequency item = "Monthly"%string)
  (Hvalid : valid_date (start_date item))
  (Hmonth : month (start_date item) <> 12)
  (Hday : days_in_month (year (start_date item)) (month (start_date item) + 1)
          < day (start_date item))
  (Hdates : date_le (start_date item) (end_date item)) :
  projection_tab fuel s start_balance range_start range_end <> Ok p.
Proof.
  intros H. apply projection_tab_all_returned in H.
  rewrite Forall_forall in H. destruct (H item Hin) as [df Hdf].
  unfold generate_recurring_events in Hdf. rewrite Hfreq in Hdf.
  destruct fuel as [|fuel]; [discriminate|].
  simpl in Hdf. unfold loop_step in Hdf. cbn [current dates] in Hdf.
  unfold date_le in Hdates. rewrite Hdates in Hdf.
  rewrite advance_monthly in Hdf.
  apply Z.eqb_neq in Hmonth. rewrite Hmonth in Hdf.
  unfold replace in Hdf.
  assert (Hv : valid_dateb (mkDate (year (start_date item))
                                   (month (start_date item) + 1)
                                   (day (start_date item))) = false).
  { unfold valid_dateb. cbn [year month day].
    apply Z.leb_gt in Hday. rewrite Hday, andb_false_r. reflexivity. }
  rewrite Hv in Hdf. discriminate.
Qed.

End TabTotality.

Section ForecastProperties.

Lemma date_range_add_days today n :
  valid_date today ->
  date_range today (add_days n today) = date_range_from (S n) today.
Proof.
  intros H. unfold date_range.
  pose proof (add_days_valid n today H) as Hv.
  pose proof (toordinal_add_days n today H) as Ho.
  assert (Hle : date_le today (add_days n today))
    by (apply toordinal_le_inv; auto; lia).
  unfold date_le in Hle. rewrite Hle, Ho.
  replace (Z.to_nat (toordinal today + Z.of_nat n - toordinal today + 1))
    with (S n) by lia.
  reflexivity.
Qed.

(** X14.  A projection over [forecast_days] days ahead has exactly
    [forecast_days + 1] entries: today, and each of the following days up
    to the last day of the horizon; it is never empty. *)
Theorem forecast_timeline_covers_horizon (start_balance : Z)
  (events : list event) (today : date) (forecast_days : nat)
  (Htoday : valid_date today) :
  map r_date
      (project_balance start_balance events today
         (forecast_end today forecast_days))
  = map (fun i => add_days i today) (seq 0 (S forecast_days)).
Proof.
  unfold forecast_end.
  rewrite project_balance_rows, timeline_rows_dates.
  rewrite date_range_add_days by assumption.
  rewrite <- stride_dates_daily, stride_dates_nth.
  apply map_ext. intros i. rewrite Nat.mul_1_l. reflexivity.
Qed.

End ForecastProperties.

Section MonthlyOverflow.

Lemma monthly_overflow_raised start_date end_date amount fuel :
  valid_date start_date -> date_le start_date end_date ->
  month start_date <> 12 ->
  days_in_month (year start_date) (month start_date + 1) < day start_date ->
  generate_recurring_events (S fuel) start_date end_date amount "Monthly"
  = Raised ValueError.
Proof.
  intros Hv Hle Hm Hd. unfold generate_recurring_events.
  simpl. unfold loop_step. cbn [current dates].
  unfold date_le in Hle. rewrite Hle, advance_monthly.
  apply Z.eqb_neq in Hm. rewrite Hm. unfold replace.
  assert (Hinv : valid_dateb (mkDate (year start_date) (month start_date + 1)
                                     (day start_date)) = false).
  { unfold valid_dateb. cbn [year month day].
    apply Z.leb_gt in Hd. rewrite Hd, andb_false_r. reflexivity. }
  rewrite Hinv. reflexivity.
Qed.

(** X6.  A monthly expansion whose start day does not exist in the month
    after the start month (the 31st before a month of 30 days, the 29th to
    31st of January before a February that is too short) raises
    [ValueError] on its first pass whenever the start date is not after
    the end date, even when the two dates are equal. *)
Theorem monthly_expansion_raises_on_day_overflow
  (start_date end_date : date) (amount : Z) (fuel : nat)
  (Hvalid : valid_date start_date)
  (Hrange : date_le start_date end_date)
  (Hmonth : month start_date <> 12)
  (Hday : days_in_month (year start_date) (month start_date + 1)
          < day start_date) :
  generate_recurring_events (S fuel) start_date end_date amount "Monthly"
  = Raised ValueError.
Proof.
  apply monthly_overflow_raised; assumption.
Qed.

End MonthlyOverflow.

(* ================================================================== *)
(** ** More about the handlers and persistence *)
(* ================================================================== *)

Section HandlerFacts.

Lemma save_data_persisted a : persisted (save_data a).
Proof. reflexivity. Qed.

Lemma startup_persisted file : persisted (startup file).
Proof. reflexivity. Qed.

Lemma handle_persisted a act : persisted a -> persisted (handle a act).
Proof.
  intros Ha. destruct act as [inp | remove | remove]; cbn [handle].
  - unfold add_handler. apply save_data_persisted.
  - unfold delete_bill_handler.
    destruct (bills (session a)); [exact Ha|].
    destruct (true && negb (String.eqb remove "None"));
      [apply save_data_persisted | exact Ha].
  - unfold delete_income_handler.
    destruct (income (session a)); [exact Ha|].
    destruct (true && negb (String.eqb remove "None"));
      [apply save_data_persisted | exact Ha].
Qed.

Lemma handle_all_persisted acts :
  forall a, persisted a -> persisted (handle_all a acts).
Proof.
  unfold handle_all. induction acts as [|act rest IH]; intros a Ha; simpl; auto.
  apply IH. apply handle_persisted. exact Ha.
Qed.

Lemma filter_name_twice (remove : string) (l : list declaration) :
  filter (fun b => negb (String.eqb (name b) remove))
         (filter (fun b => negb (String.eqb (name b) remove)) l)
  = filter (fun b => negb (String.eqb (name b) remove)) l.
Proof.
  induction l as [|b rest IH]; simpl; auto.
  destruct (negb (String.eqb (name b) remove)) eqn:E; simpl; auto.
  rewrite E, IH. reflexivity.
Qed.

Lemma filter_name_comm (r1 r2 : string) (l : list declaration) :
  filter (fun b => negb (String.eqb (name b) r1))
         (filter (fun b => negb (String.eqb (name b) r2)) l)
  = filter (fun b => negb (String.eqb (name b) r2))
           (filter (fun b => negb (String.eqb (name b) r1)) l).
Proof.
  induction l as [|b rest IH]; simpl; auto.
  destruct (negb (String.eqb (name b) r1)) eqn:E1;
    destruct (negb (String.eqb (name b) r2)) eqn:E2; simpl;
    rewrite ?E1, ?E2, IH; reflexivity.
Qed.

(** The session after the delete button, for any selection. *)
Lemma delete_bill_session remove a :
  session (delete_bill_handler true remove a) =
  if String.eqb remove "None" then session a
  else mkSession (filter (fun b => negb (String.eqb (name b) remove))
                         (bills (session a)))
                 (income (session a)).
Proof.
  destruct (String.eqb remove "None") eqn:E.
  - unfold delete_bill_handler. rewrite E.
    destruct (bills (session a)); reflexivity.
  - apply String.eqb_neq in E. apply delete_bill_handler_eq. exact E.
Qed.

Lemma delete_income_session remove a :
  session (delete_income_handler true remove a) =
  if String.eqb remove "None" then session a
  else mkSession (bills (session a))
                 (filter (fun i => negb (String.eqb (name i) remove))
                         (income (session a))).
Proof.
  destruct (String.eqb remove "None") eqn:E.
  - unfold delete_income_handler. rewrite E.
    destruct (income (session a)); reflexivity.
  - apply String.eqb_neq in E. apply delete_income_handler_eq. exact E.
Qed.

Lemma session_eta s : mkSession (bills s) (income s) = s.
Proof. destruct s; reflexivity. Qed.

End HandlerFacts.

Section HandlerMore.

(** X19.  After any sequence of additions and deletions, starting from
    any content of the data file or from none, the file holds the
    session: a restart loads exactly the current bills and income.  A
    missing file gives two empty collections. *)
Theorem restart_recovers_session (file : option session_state)
  (acts : list action) :
  session (startup (data_file (handle_all (startup file) acts)))
  = session (handle_all (startup file) acts) /\
  session (startup None) = mkSession [] [].
Proof.
  split; [|reflexivity].
  apply (handle_all_persisted acts (startup file) (startup_persisted file)).
Qed.

(** X20.  Deleting is idempotent and the order of two deletions does not
    matter, for bills and for income alike, and a bill deletion and an
    income deletion commute. *)
Theorem deletions_idempotent_and_commute (r1 r2 : string) (a : app) :
  session (delete_bill_handler true r1 (delete_bill_handler true r1 a))
  = session (delete_bill_handler true r1 a) /\
  session (delete_income_handler true r1 (delete_income_handler true r1 a))
  = session (delete_income_handler true r1 a) /\
  session (delete_bill_handler true r1 (delete_bill_handler true r2 a))
  = session (delete_bill_handler true r2 (delete_bill_handler true r1 a)) /\
  session (delete_income_handler true r1 (delete_income_handler true r2 a))
  = session (delete_income_handler true r2 (delete_income_handler true r1 a)) /\
  session (delete_bill_handler true r1 (delete_income_handler true r2 a))
  = session (delete_income_handler true r2 (delete_bill_handler true r1 a)).
Proof.
  repeat (rewrite delete_bill_session || rewrite delete_income_session).
  destruct (String.eqb r1 "None"); destruct (String.eqb r2 "None");
    cbn [bills income]; rewrite ?filter_name_twice;
    repeat split; try reflexivity;
    rewrite filter_name_comm; reflexivity.
Qed.

(** X22.  Adding a bill under a name that no stored bill has, and that is
    not the placeholder "None", and then deleting that name gives back the
    bills as they were; the income is untouched throughout. *)
Theorem add_then_delete_restores_bills (inp : sidebar) (a : app)
  (Hbill : flow_type inp = "Bill (expense)"%string)
  (Hname : in_name inp <> "None"%string)
  (Hfresh : Forall (fun b => name b <> in_name inp) (bills (session a))) :
  session (delete_bill_handler true (in_name inp) (add_handler inp a))
  = session a.
Proof.
  rewrite delete_bill_handler_eq by assumption.
  assert (Hinc : income (session (add_handler inp a)) = income (session a)).
  { unfold add_handler. rewrite Hbill. reflexivity. }
  rewrite Hinc, add_handler_bills, Hbill, String.eqb_refl.
  rewrite filter_app. cbn [filter name].
  rewrite String.eqb_refl. cbn [negb].
  rewrite filter_name_none by assumption.
  rewrite app_nil_r. apply session_eta.
Qed.

End HandlerMore.

(* ================================================================== *)
(** ** Further worked instances *)
(* ================================================================== *)

Section MoreInstances.

(** The daily expansion over the turn of February 2024. *)
Lemma daily_expansion_is_day_grid_instance :
  valid_date (mkDate 2024 2 28) /\ valid_date (mkDate 2024 3 1) /\
  (List.length (date_range (mkDate 2024 2 28) (mkDate 2024 3 1)) < 5)%nat /\
  generate_recurring_events 5 (mkDate 2024 2 28) (mkDate 2024 3 1) 20 "Daily"
  = Returned (map (fun d => (d, 20))
                  (date_range (mkDate 2024 2 28) (mkDate 2024 3 1))).
Proof.
  split; [reflexivity|]. split; [reflexivity|].
  split; [vm_compute; lia|].
  apply daily_expansion_is_day_grid; [reflexivity | reflexivity | vm_compute; lia].
Defined.

(** The weekly expansion over January 2025 has five dates. *)
Lemma weekly_expansion_every_seven_days_instance :
  valid_date (mkDate 2025 1 1) /\ valid_date (mkDate 2025 1 31) /\
  (stride_count 7 (mkDate 2025 1 1) (mkDate 2025 1 31) < 6)%nat /\
  generate_recurring_events 6 (mkDate 2025 1 1) (mkDate 2025 1 31) 20 "Weekly"
  = Returned
      (map (fun i => (add_days (7 * i) (mkDate 2025 1 1), 20))
           (seq 0 (stride_count 7 (mkDate 2025 1 1) (mkDate 2025 1 31)))).
Proof.
  split; [reflexivity|]. split; [reflexivity|].
  split; [vm_compute; lia|].
  apply weekly_expansion_every_seven_days;
    [reflexivity | reflexivity | vm_compute; lia].
Defined.

(** The monthly expansion from the 15th of November 2024 passes the turn
    of the year. *)
Lemma monthly_expansion_same_day_each_month_instance :
  valid_date (mkDate 2024 11 15) /\
  let ds :=
    emitted
      (generate_recurring_events 9 (mkDate 2024 11 15) (mkDate 2025 2 20)
         (-50) "Monthly") in
  ds = map (monthly_date (mkDate 2024 11 15)) (seq 0 (List.length ds)).
Proof.
  split; [reflexivity|].
  apply monthly_expansion_same_day_each_month. reflexivity.
Defined.

(** The yearly expansion from the leap day of 2020. *)
Lemma yearly_expansion_same_day_each_year_instance :
  valid_date (mkDate 2020 2 29) /\
  let ds :=
    emitted
      (generate_recurring_events 9 (mkDate 2020 2 29) (mkDate 2024 12 31)
         (-50) "Yearly") in
  ds = map (yearly_date (mkDate 2020 2 29)) (seq 0 (List.length ds)).
Proof.
  split; [reflexivity|].
  apply yearly_expansion_same_day_each_year. reflexivity.
Defined.

(** The 31st of March has no counterpart in April. *)
Lemma monthly_expansion_raises_on_day_overflow_instance :
  valid_date (mkDate 2025 3 31) /\
  date_le (mkDate 2025 3 31) (mkDate 2025 3 31) /\
  month (mkDate 2025 3 31) <> 12 /\
  days_in_month (year (mkDate 2025 3 31)) (month (mkDate 2025 3 31) + 1)
    < day (mkDate 2025 3 31) /\
  generate_recurring_events 1 (mkDate 2025 3 31) (mkDate 2025 3 31) 10
    "Monthly" = Raised ValueError.
Proof.
  split; [reflexivity|]. split; [reflexivity|].
  split; [discriminate|]. split; [reflexivity|].
  apply monthly_expansion_raises_on_day_overflow;
    [reflexivity | reflexivity | discriminate | reflexivity].
Defined.

(** Three days with an event before the range and two within it. *)
Lemma balance_is_start_plus_events_so_far_instance :
  let events := [mkEvent (mkDate 2024 12 31) 70 "Income" "pay";
                 mkEvent (mkDate 2025 1 2) (-50) "Bill" "rent";
                 mkEvent (mkDate 2025 1 3) 20 "Income" "pay"] in
  valid_date (mkDate 2025 1 1) /\
  Forall (fun e => valid_date (ev_date e)) events /\
  Forall (fun r => r_balance r =
                   100 + total_between events (mkDate 2025 1 1) (r_date r))
         (project_balance 100 events (mkDate 2025 1 1) (mkDate 2025 1 3)).
Proof.
  intros events.
  assert (Hev : Forall (fun e => valid_date (ev_date e)) events)
    by (repeat constructor).
  split; [reflexivity|]. split; [exact Hev|].
  apply balance_is_start_plus_events_so_far; [reflexivity | exact Hev].
Defined.

(** Two events in either order. *)
Lemma project_balance_order_independent_instance :
  let e1 := mkEvent (mkDate 2025 1 2) (-50) "Bill" "rent" in
  let e2 := mkEvent (mkDate 2025 1 2) 20 "Income" "pay" in
  Permutation [e1; e2] [e2; e1] /\
  project_balance 100 [e1; e2] (mkDate 2025 1 1) (mkDate 2025 1 3) =
  project_balance 100 [e2; e1] (mkDate 2025 1 1) (mkDate 2025 1 3).
Proof.
  intros e1 e2. split; [apply perm_swap|].
  apply project_balance_order_independent. apply perm_swap.
Defined.

(** An event of February leaves January flat. *)
Lemma no_event_in_range_keeps_balance_instance :
  let events := [mkEvent (mkDate 2025 2 1) (-50) "Bill" "rent"] in
  valid_date (mkDate 2025 1 1) /\ valid_date (mkDate 2025 1 31) /\
  Forall (fun e => date_lt (ev_date e) (mkDate 2025 1 1) \/
                   date_lt (mkDate 2025 1 31) (ev_date e)) events /\
  Forall (fun r => r_balance r = 100 /\ r_amount r = 0)
         (project_balance 100 events (mkDate 2025 1 1) (mkDate 2025 1 31)).
Proof.
  intros events.
  assert (Hout : Forall (fun e => date_lt (ev_date e) (mkDate 2025 1 1) \/
                                  date_lt (mkDate 2025 1 31) (ev_date e)) events)
    by (constructor; [right; reflexivity | constructor]).
  split; [reflexivity|]. split; [reflexivity|]. split; [exact Hout|].
  apply no_event_in_range_keeps_balance; [reflexivity | reflexivity | exact Hout].
Defined.

(** A timeline that dips to -3 on its second day. *)
Lemma negative_flag_iff_some_day_below_zero_instance :
  let tl := [mkRow (mkDate 2025 1 1) 5 0; mkRow (mkDate 2025 1 2) (-3) (-8)] in
  min_balance tl = Some (-3) /\
  (In (-3) (map r_balance tl) /\ Forall (fun r => -3 <= r_balance r) tl) /\
  (exists r, In r tl /\ r_balance r < 0) /\
  goes_negative tl = true.
Proof.
  intros tl.
  assert (Hneg : exists r, In r tl /\ r_balance r < 0).
  { exists (mkRow (mkDate 2025 1 2) (-3) (-8)).
    split; [right; left; reflexivity | reflexivity]. }
  split; [reflexivity|]. split; [|split; [exact Hneg|]].
  - exact (proj1 (negative_flag_iff_some_day_below_zero tl) (-3) eq_refl).
  - exact (proj2 (proj2 (proj2 (negative_flag_iff_some_day_below_zero tl))) Hneg).
Defined.

(** Income only, from a balance of 10. *)
Lemma balance_bounded_by_sign_of_events_instance :
  let events := [mkEvent (mkDate 2025 1 2) 20 "Income" "pay"] in
  Forall (fun e => 0 <= ev_amount e) events /\ 0 <= 10 /\
  Forall (fun r => 10 <= r_balance r)
         (project_balance 10 events (mkDate 2025 1 1) (mkDate 2025 1 3)) /\
  goes_negative
    (project_balance 10 events (mkDate 2025 1 1) (mkDate 2025 1 3)) = false.
Proof.
  intros events.
  assert (Hpos : Forall (fun e => 0 <= ev_amount e) events)
    by (constructor; [simpl; lia | constructor]).
  assert (H10 : 0 <= 10) by lia.
  split; [exact Hpos|]. split; [exact H10|].
  destruct (proj1 (balance_bounded_by_sign_of_events 10 (mkDate 2025 1 1)
                     (mkDate 2025 1 3) events) Hpos) as [H1 H2].
  split; [exact H1 | exact (H2 H10)].
Defined.

(** The swapped range of January 2025. *)
Lemma project_balance_empty_range_instance :
  date_lt (mkDate 2025 1 1) (mkDate 2025 1 31) /\
  project_balance 100 [mkEvent (mkDate 2025 1 2) (-50) "Bill" "rent"]
    (mkDate 2025 1 31) (mkDate 2025 1 1) = [].
Proof.
  split; [reflexivity|].
  apply (project_balance_empty_range 100 (mkDate 2025 1 31) (mkDate 2025 1 1)).
  reflexivity.
Defined.

(** One event within the range and one after it. *)
Lemma events_annotated_with_day_balance_instance :
  let events := [mkEvent (mkDate 2025 1 2) (-50) "Bill" "rent";
                 mkEvent (mkDate 2025 2 1) (-50) "Bill" "rent"] in
  let tl := project_balance 100 events (mkDate 2025 1 1) (mkDate 2025 1 3) in
  valid_date (mkDate 2025 1 1) /\ valid_date (mkDate 2025 1 3) /\
  annotate_events events tl =
    map (fun e => (e, balance_on tl (ev_date e))) events.
Proof.
  intros events tl.
  split; [reflexivity|]. split; [reflexivity|].
  apply (events_annotated_with_day_balance 100 (mkDate 2025 1 1)
           (mkDate 2025 1 3) eq_refl eq_refl events).
Defined.

(** Thirty days ahead of the first of January 2025. *)
Lemma forecast_timeline_covers_horizon_instance :
  valid_date (mkDate 2025 1 1) /\
  map r_date
      (project_balance 100 [] (mkDate 2025 1 1)
         (forecast_end (mkDate 2025 1 1) 30))
  = map (fun i => add_days i (mkDate 2025 1 1)) (seq 0 31).
Proof.
  split; [reflexivity|].
  apply (forecast_timeline_covers_horizon 100 [] (mkDate 2025 1 1) 30).
  reflexivity.
Defined.

(** No declarations and a start balance of 100 over January 2025. *)
Lemma projection_without_declarations_instance :
  valid_date (mkDate 2025 1 1) /\ valid_date (mkDate 2025 1 31) /\
  date_le (mkDate 2025 1 1) (mkDate 2025 1 31) /\
  exists p,
    projection_tab 0 (mkSession [] []) 100 (mkDate 2025 1 1) (mkDate 2025 1 31)
    = Ok p /\
    Forall (fun r => r_balance r = 100) (timeline p) /\
    negative p = (100 <? 0).
Proof.
  split; [reflexivity|]. split; [reflexivity|]. split; [reflexivity|].
  apply projection_without_declarations; reflexivity.
Defined.


(** A bill with the frequency "Fortnightly". *)
Lemma projection_never_returns_on_unknown_frequency_instance :
  let item := mkDecl "rent" (-50) "Fortnightly" (mkDate 2025 1 1)
                     (mkDate 2025 4 1) in
  let s := mkSession [item] [] in
  In item (bills s ++ income s) /\ ~ recognised (frequency item) /\
  date_le (start_date item) (end_date item) /\
  forall fuel p,
    projection_tab fuel s 100 (mkDate 2025 1 1) (mkDate 2025 4 1) <> Ok p.
Proof.
  intros item s.
  assert (Hin : In item (bills s ++ income s)) by (left; reflexivity).
  assert (Hf : ~ recognised (frequency item))
    by (intros [H | [H | [H | H]]]; discriminate H).
  split; [exact Hin|]. split; [exact Hf|]. split; [reflexivity|].
  intros fuel p.
  apply (projection_never_returns_on_unknown_frequency 100 (mkDate 2025 1 1)
           (mkDate 2025 4 1) s item fuel p Hin Hf eq_refl).
Defined.

(** A monthly bill from the 31st of January. *)
Lemma projection_fails_on_monthly_overflow_instance :
  let item := mkDecl "rent" (-50) "Monthly" (mkDate 2025 1 31)
                     (mkDate 2025 4 1) in
  let s := mkSession [item] [] in
  In item (bills s ++ income s) /\
  valid_date (start_date item) /\
  date_le (start_date item) (end_date item) /\
  forall fuel p,
    projection_tab fuel s 100 (mkDate 2025 1 1) (mkDate 2025 4 1) <> Ok p.
Proof.
  intros item s.
  assert (Hin : In item (bills s ++ income s)) by (left; reflexivity).
  split; [exact Hin|]. split; [reflexivity|]. split; [reflexivity|].
  intros fuel p.
  apply (projection_fails_on_monthly_overflow 100 (mkDate 2025 1 1)
           (mkDate 2025 4 1) s item fuel p Hin eq_refl eq_refl);
    [discriminate | reflexivity | reflexivity].
Defined.

(** Add "gym" to a session that has "rent", then delete "gym". *)
Lemma add_then_delete_restores_bills_instance :
  let a :=
    mkApp (mkSession
             [mkDecl "rent" (-50) "Monthly" (mkDate 2025 1 1) (mkDate 2025 4 1)]
             [])
          None in
  let inp := mkSidebar "Bill (expense)" "gym" 20 "Weekly"
                       (mkDate 2025 1 1) (mkDate 2025 4 1) in
  flow_type inp = "Bill (expense)"%string /\
  in_name inp <> "None"%string /\
  Forall (fun b => name b <> in_name inp) (bills (session a)) /\
  session (delete_bill_handler true (in_name inp) (add_handler inp a))
  = session a.
Proof.
  intros a inp.
  assert (Hfresh : Forall (fun b => name b <> in_name inp) (bills (session a)))
    by (constructor; [discriminate | constructor]).
  split; [reflexivity|]. split; [discriminate|]. split; [exact Hfresh|].
  apply add_then_delete_restores_bills;
    [reflexivity | discriminate | exact Hfresh].
Defined.

End MoreInstances.

(* ================================================================== *)
(** ** The end of the date range *)
(* ================================================================== *)

Section DateRangeEnd.









(** On the last day of the date type the daily branch runs off the end:
    the loop raises [OverflowError]. *)
Lemma daily_on_last_day_overflows :
  Bounded.generate_recurring_events 1 (mkDate 9999 12 31) (mkDate 9999 12 31)
    20 "Daily" = Bounded.Raised Bounded.OverflowError.
Proof. reflexivity. Qed.


End DateRangeEnd.

(* ================================================================== *)
(** ** The prefix-sum law and the rounding of binary64 *)
(* ================================================================== *)

Section FloatRounding.

(** C1 (as the spec has it) fails over binary64 amounts: with a start
    balance of 0.1 and one event of 0.2 on the only day of the range, the
    balance of that day is 0.30000000000000004, and taking the start
    balance off it does not give back the day's amount. *)
Lemma prefix_sum_law_fails_in_binary64 :
  exists r0,
    nth_error
      (FloatAmounts.project_balance FloatAmounts.one_tenth
         [FloatAmounts.mkEvent (mkDate 2025 1 1) FloatAmounts.two_tenths]
         (mkDate 2025 1 1) (mkDate 2025 1 1)) 0
    = Some r0 /\
    FloatAmounts.r_date r0 = mkDate 2025 1 1 /\
    FloatAmounts.r_amount r0 = FloatAmounts.two_tenths /\
    PrimFloat.eqb
      (PrimFloat.sub (FloatAmounts.r_balance r0) FloatAmounts.one_tenth)
      FloatAmounts.two_tenths
    = false.
Proof.
  eexists. split; [vm_compute; reflexivity|].
  repeat split; vm_compute; reflexivity.
Qed.

End FloatRounding.
